(** * Account pool orchestration and health monitoring (jeeves / sales_bot)

    A shallow embedding of
      - [sales_bot/db/models.py]          (AccountStatus, Account, is_available)
      - [sales_bot/accounts/monitoring.py] (AccountMonitor)
      - [sales_bot/accounts/manager.py]    (AccountManager)
    and the properties of the account lifecycle that the design document
    states about them.

    Modelling conventions.
      - Python integers are [Z]; the consecutive-error counter, which only
        ever holds [get(id, 0) + 1], is a [nat].
      - The two in-memory dicts ([_error_counts], [_active_clients]) are
        [gmap]s keyed by the account id.
      - The accounts table is a list of rows, in the order the store returns
        them.
      - An awaited call on the remote session returns or raises: its behaviour
        during one call of a method is an input of the model ([Session]).
        Store calls that the source places inside a [try] are given a possible
        fault in the same way.  In the account core, calls made from an
        exception handler or a [finally] clause, for whose failure the source
        makes no provision, are modelled as completing.  In the handlers of
        [api/handlers/testing.py] every [message.reply] may raise, inside a
        [try], outside of it and in an [except] clause alike.
      - Exceptions are instances of Python's [Exception]; the classes that
        the source tells apart are constructors of [ExceptionClass]. *)

From Stdlib Require Import ZArith Lia.
From stdpp Require Import gmap strings list pretty.

Open Scope Z_scope.

(** ** Data model: db/models.py *)

(** [class AccountStatus(str, Enum)] *)
Inductive AccountStatus : Set :=
  | ACTIVE
  | DISABLED
  | BLOCKED.

#[global] Instance AccountStatus_eq_dec : EqDecision AccountStatus.
Proof. solve_decision. Defined.

(** [class Account(Base)]: the columns the account core reads or writes.
    [daily_messages] is [Column(Integer, default=0)]; the two timestamps are
    nullable [DateTime] columns, kept as optional numbers. *)
Record Account : Type := mkAccount {
  id : Z;
  phone : string;
  session_string : option string;
  status : AccountStatus;
  last_used : option Z;
  last_warmup : option Z;
  daily_messages : Z
}.

#[global] Instance Account_eq_dec : EqDecision Account.
Proof. solve_decision. Defined.

Definition set_status (s : AccountStatus) (a : Account) : Account :=
  mkAccount (id a) (phone a) (session_string a) s
            (last_used a) (last_warmup a) (daily_messages a).

Definition set_session_string (s : string) (a : Account) : Account :=
  mkAccount (id a) (phone a) (Some s) (status a)
            (last_used a) (last_warmup a) (daily_messages a).

Definition set_daily_messages (n : Z) (a : Account) : Account :=
  mkAccount (id a) (phone a) (session_string a) (status a)
            (last_used a) (last_warmup a) n.

(** ** Exceptions and outcomes of awaited calls *)

(** The four pyrogram classes are the ones [check_account] catches first. *)
Inductive ExceptionClass : Set :=
  | UserDeactivated
  | SessionRevoked
  | AuthKeyUnregistered
  | UserDeactivatedBan
  | AttributeError
  | OtherException.

Record PyException : Type := mkException {
  exc_class : ExceptionClass;
  exc_str : string
}.

Inductive Outcome (A : Type) : Type :=
  | Returns (a : A)
  | Raises (e : PyException).

Arguments Returns {A} a.
Arguments Raises {A} e.

(** [except (UserDeactivated, SessionRevoked, AuthKeyUnregistered,
    UserDeactivatedBan)] *)
Definition is_block_signal (e : PyException) : bool :=
  match exc_class e with
  | UserDeactivated | SessionRevoked | AuthKeyUnregistered
  | UserDeactivatedBan => true
  | AttributeError | OtherException => false
  end.

(** What the remote session ([AccountClient]) does during one call of a
    method of the core.  [get_me] and [client_send_message] are kept by the
    truthiness the source tests. *)
Record Session : Type := mkSession {
  connect : Outcome bool;
  get_me : Outcome bool;
  client_send_message : Outcome bool;
  send_code_request : Outcome unit;
  authorize : Outcome (option string)
}.

(** ** The state the two components work on *)

(** [check_all_accounts]: [stats = {"total": 0, "active": 0, "disabled": 0,
    "blocked": 0}] *)
Record Stats : Type := mkStats {
  total : nat;
  active : nat;
  disabled : nat;
  blocked : nat
}.

(** [AccountClient(account)] *)
Record AccountClient : Type := mkClient {
  client_account : Account
}.

(** Calls to the collaborators that leave a trace: the notifier, the safety
    policy's bookkeeping, the store's counter and the closing of a session. *)
Inductive Event : Type :=
  | Disconnect (account_id : Z)
  | NotifyBlocked (account : option Account) (reason : string)
  | NotifyDisabled (account : Account) (reason : string)
  | NotifyStatusReport (stats : Stats)
  | IncrementMessages (account_id : Z)
  | RecordMessage (account : Account)
  | SendCodeRequest (phone_number : string).

Record World : Type := mkWorld {
  db : list Account;
  _error_counts : gmap Z nat;
  _active_clients : gmap Z AccountClient;
  log : list Event
}.

Definition with_db (f : list Account → list Account) (σ : World) : World :=
  mkWorld (f (db σ)) (_error_counts σ) (_active_clients σ) (log σ).

Definition with_error_counts (f : gmap Z nat → gmap Z nat) (σ : World) : World :=
  mkWorld (db σ) (f (_error_counts σ)) (_active_clients σ) (log σ).

Definition with_active_clients
    (f : gmap Z AccountClient → gmap Z AccountClient) (σ : World) : World :=
  mkWorld (db σ) (_error_counts σ) (f (_active_clients σ)) (log σ).

Definition emit (ev : Event) (σ : World) : World :=
  mkWorld (db σ) (_error_counts σ) (_active_clients σ) (log σ ++ [ev]).

(** ** A state-and-exception monad for the method bodies *)

Definition M (A : Type) : Type := World → Outcome A * World.

#[global] Instance M_ret : MRet M := λ A a σ, (Returns a, σ).

#[global] Instance M_bind : MBind M := λ A B f m σ,
  match m σ with
  | (Returns a, σ') => f a σ'
  | (Raises e, σ') => (Raises e, σ')
  end.

(** [await call]: the outcome of the call is given. *)
Definition await {A : Type} (o : Outcome A) : M A := λ σ, (o, σ).

Definition raise {A : Type} (e : PyException) : M A := λ σ, (Raises e, σ).

Definition gets {A : Type} (f : World → A) : M A := λ σ, (Returns (f σ), σ).

Definition modify (f : World → World) : M unit := λ σ, (Returns tt, f σ).

(** [try: body except Exception as e: handler e] *)
Definition try_except {A : Type} (body : M A) (handler : PyException → M A) : M A :=
  λ σ, match body σ with
       | (Returns a, σ') => (Returns a, σ')
       | (Raises e, σ') => handler e σ'
       end.

(** [try: body finally: cleanup] *)
Definition try_finally {A : Type} (body : M A) (cleanup : M unit) : M A :=
  λ σ, match body σ with
       | (o, σ') =>
           match cleanup σ' with
           | (Returns _, σ'') => (o, σ'')
           | (Raises e, σ'') => (Raises e, σ'')
           end
       end.

(** ** The account store: db/queries.py, which the sources only call *)

(** Modelled from the spec: [getById(id)] of the Account Store
    ([AccountQueries.get_account_by_id]), the row with that primary key. *)
Definition get_account_by_id (account_id : Z) (rows : list Account) : option Account :=
  List.find (λ a, bool_decide (id a = account_id)) rows.

(** Modelled from the spec: [getByPhone(phone)] of the Account Store
    ([AccountQueries.get_account_by_phone]). *)
Definition get_account_by_phone (p : string) (rows : list Account) : option Account :=
  List.find (λ a, bool_decide (phone a = p)) rows.

(** Modelled from the spec: [getActiveAccounts() -> [Account]], the query for
    all accounts in status active ([AccountQueries.get_active_accounts]). *)
Definition get_active_accounts (rows : list Account) : list Account :=
  List.filter (λ a, bool_decide (status a = ACTIVE)) rows.

(** Modelled from the spec: [updateStatus(id, status)] of the Account Store
    ([AccountQueries.update_account_status_by_id]): the row with that id
    takes the status, every other row and column is kept. *)
Definition update_account_status_by_id
    (account_id : Z) (s : AccountStatus) (rows : list Account) : list Account :=
  List.map (λ a, if bool_decide (id a = account_id) then set_status s a else a) rows.

(** Modelled from the spec: [updateStatus(phone, status) -> bool] of the
    Account Store ([AccountQueries.update_account_status]). *)
Definition update_account_status_by_phone
    (p : string) (s : AccountStatus) (rows : list Account) : list Account :=
  List.map (λ a, if bool_decide (phone a = p) then set_status s a else a) rows.

(** Modelled from the spec: [updateSessionCredential(id, credential) -> bool]
    ([AccountQueries.update_session]). *)
Definition update_session
    (account_id : Z) (credential : string) (rows : list Account) : list Account :=
  List.map (λ a, if bool_decide (id a = account_id)
                 then set_session_string credential a else a) rows.

(** Modelled from the spec: [incrementMessageCount(id)]
    ([AccountQueries.increment_messages]). *)
Definition increment_messages (account_id : Z) (rows : list Account) : list Account :=
  List.map (λ a, if bool_decide (id a = account_id)
                 then set_daily_messages (daily_messages a + 1) a else a) rows.

(** Modelled from the spec: [createAccount(phone)]; an account is "created on
    enrollment (status=active, counters zero)", without a session credential.
    The new primary key is one past the largest in the table. *)
Definition fresh_id (rows : list Account) : Z :=
  1 + List.fold_right (λ a m, Z.max (id a) m) 0 rows.

Definition new_account (p : string) (rows : list Account) : Account :=
  mkAccount (fresh_id rows) p None ACTIVE None None 0.

(** The status column of the row with this id, if there is one. *)
Definition status_of (account_id : Z) (rows : list Account) : option AccountStatus :=
  status <$> get_account_by_id account_id rows.

Arguments get_account_by_id : simpl never.
Arguments get_account_by_phone : simpl never.
Arguments get_active_accounts : simpl never.
Arguments update_account_status_by_id : simpl never.
Arguments update_account_status_by_phone : simpl never.
Arguments update_session : simpl never.
Arguments increment_messages : simpl never.
Arguments new_account : simpl never.
Arguments status_of : simpl never.

(** ** Sample data for the scenarios *)

Module Sample.

Definition alice : Account :=
  mkAccount 1 "+15550001" None ACTIVE None None 0.

Definition bob : Account :=
  mkAccount 2 "+15550002" (Some "1BVtsOK4Bu") ACTIVE None None 49.

Definition start : World := mkWorld [alice; bob] ∅ ∅ [].

Definition revoked : PyException := mkException SessionRevoked "SESSION_REVOKED".

Definition flood : PyException := mkException OtherException "FLOOD_WAIT_30".

Definition store_down : PyException :=
  mkException OtherException "connection refused".

(** A session on which every call goes well. *)
Definition online : Session :=
  mkSession (Returns true) (Returns true) (Returns true) (Returns tt)
            (Returns (Some "1BVtsOK4Bu")).

(** The connect returns false. *)
Definition offline : Session :=
  mkSession (Returns false) (Returns true) (Returns true) (Returns tt)
            (Returns None).

(** The session connects and the probe raises [SessionRevoked]. *)
Definition banned : Session :=
  mkSession (Returns true) (Raises revoked) (Returns true) (Returns tt)
            (Returns None).

(** The session connects and the probe raises an ordinary error. *)
Definition flaky : Session :=
  mkSession (Returns true) (Raises flood) (Returns true) (Returns tt)
            (Returns None).

(** The session connects and the request for the code raises. *)
Definition no_code : Session :=
  mkSession (Returns true) (Returns true) (Returns true) (Raises flood)
            (Returns None).

(** A safety policy that lets every account send. *)
Definition permissive (account : Account) : bool := true.

End Sample.

(** ** core/ai/sales/manager.py: the last client message *)

Module Sales.

(** Reading [msg[key]] on a message of the history finds the value or raises
    [KeyError(key)]. *)
Inductive Lookup : Type :=
  | Found (value : string)
  | KeyError (key : string).

(** The generator of [SalesManager.get_response], consumed by [next]:
    [(msg["text"] for msg in reversed(dialog_history)
       if msg["direction"] == "in")], with the default [next] is given.
    The argument is the history already reversed; the scan stops at the
    first message it yields. *)
Fixpoint first_in (reversed_history : list (gmap string string)) : Lookup :=
  match reversed_history with
  | [] => Found EmptyString
  | msg :: rest =>
      match msg !! "direction" with
      | None => KeyError "direction"
      | Some direction =>
          if bool_decide (direction = "in") then
            match msg !! "text" with
            | Some text => Found text
            | None => KeyError "text"
            end
          else first_in rest
      end
  end.

(** [last_message] of [SalesManager.get_response]. *)
Definition last_message (dialog_history : list (gmap string string)) : Lookup :=
  first_in (rev dialog_history).

(** A message the scan passes over: it has a direction, and it is not
    ["in"]. *)
Definition passed_over (msg : gmap string string) : Prop :=
  ∃ direction, msg !! "direction" = Some direction ∧ direction ≠ "in".

End Sales.

(** ** api/handlers/testing.py: the test-dialog handlers *)

Module Testing.

(** jeeves/core/messaging/enums.py: [class DialogStatus(str, Enum)] *)
Inductive DialogStatus : Set :=
  | active
  | closed
  | blocked
  | rejected
  | not_qualified
  | meeting_scheduled
  | stopped.

(** The value of a member; as the enum derives from [str], it is also what a
    dict hashes and compares the member by. *)
Definition value (status : DialogStatus) : string :=
  match status with
  | active => "active"
  | closed => "closed"
  | blocked => "blocked"
  | rejected => "rejected"
  | not_qualified => "not_qualified"
  | meeting_scheduled => "meeting_scheduled"
  | stopped => "stopped"
  end.

(** [STATUS_TO_TAG] *)
Definition STATUS_TO_TAG : gmap string string :=
  list_to_map
    [(value active, "#уточнение");
     (value closed, "#продажа");
     (value blocked, "#заблокировал");
     (value rejected, "#отказ");
     (value not_qualified, "#неподходит");
     (value meeting_scheduled, "#успех")].

(** [TAG_DESCRIPTIONS] *)
Definition TAG_DESCRIPTIONS : gmap string string :=
  list_to_map
    [("#уточнение", "Требуется уточнение деталей");
     ("#продажа", "Успешная продажа");
     ("#неподходит", "Клиент не соответствует критериям");
     ("#отказ", "Отказ от покупки");
     ("#успех", "Назначена встреча с клиентом");
     ("#тест", "Тестовый диалог с отделом продаж");
     ("#заблокировал", "Клиент заблокировал бота")].

(** [result_tag = STATUS_TO_TAG.get(status, "#тест")] *)
Definition result_tag (status : DialogStatus) : string :=
  default "#тест" (STATUS_TO_TAG !! value status).

(** [tag_description = TAG_DESCRIPTIONS.get(result_tag, "")] *)
Definition tag_description (tag : string) : string :=
  default EmptyString (TAG_DESCRIPTIONS !! tag).

(** The fields of a pyrogram [Message] the handlers read.  [text] is absent
    on a message without text. *)
Record Message : Type := mkMessage {
  message_id : Z;
  from_user_id : Z;
  first_name : string;
  text : option string;
  date : string
}.

(** [DialogConductor(send_func=send_message)]: the conductor keeps the
    closure, which replies to the message of the [/test_dialog] command. *)
Record DialogConductor : Type := mkConductor {
  origin : Message
}.

(** The two module-level dicts, the replies the handlers have sent (the id
    of the message replied to, the text) and the messages posted to the
    analysis group (group, topic, text). *)
Record Bot : Type := mkBot {
  test_dialogs : gmap Z DialogConductor;
  dialog_messages : gmap Z (list Message);
  replies : list (Z * string);
  group_posts : list (Z * Z * string)
}.

(** What the pyrogram client does during one call of a handler. *)
Record Client : Type := mkClient {
  get_chat : Outcome (option Z);
  resolve_peer : Outcome Z;
  create_topic : Outcome Z;
  send_message : Outcome Z;
  forward_messages : Outcome unit
}.

(** What a conductor does during one call: the messages it sends through its
    [send_func], in order, and then its result. *)
Record Run (A : Type) : Type := mkRun {
  sent : list Message;
  result : Outcome A
}.

Arguments mkRun {A} sent result.
Arguments sent {A} r.
Arguments result {A} r.

(** The state-and-exception monad, over the bot's state. *)
Definition H (A : Type) : Type := Bot → Outcome A * Bot.

#[global] Instance H_ret : MRet H := λ A a β, (Returns a, β).

#[global] Instance H_bind : MBind H := λ A B f m β,
  match m β with
  | (Returns a, β') => f a β'
  | (Raises e, β') => (Raises e, β')
  end.

Definition await {A : Type} (o : Outcome A) : H A := λ β, (o, β).

Definition gets {A : Type} (f : Bot → A) : H A := λ β, (Returns (f β), β).

Definition modify (f : Bot → Bot) : H unit := λ β, (Returns tt, f β).

Definition try_except {A : Type} (body : H A) (handler : PyException → H A) : H A :=
  λ β, match body β with
       | (Returns a, β') => (Returns a, β')
       | (Raises e, β') => handler e β'
       end.

Definition nl : string := String (Ascii.ascii_of_nat 10) EmptyString.

(** [s[n:]] *)
Fixpoint slice_from (n : nat) (s : string) : string :=
  match n, s with
  | O, _ => s
  | S n, String _ s => slice_from n s
  | S _, EmptyString => EmptyString
  end.

(** [await message.reply(text)]: the call raises, or the reply is sent;
    [replied] is its outcome. *)
Definition reply (message : Message) (body : string) (replied : Outcome unit) : H unit :=
  await replied;;
  modify (λ β, mkBot (test_dialogs β) (dialog_messages β)
                     (replies β ++ [(message_id message, body)]) (group_posts β)).

(** [cleanup_dialog] *)
Definition cleanup_dialog (user_id : Z) : H unit :=
  modify (λ β, mkBot (delete user_id (test_dialogs β))
                     (delete user_id (dialog_messages β))
                     (replies β) (group_posts β)).

(** [handle_error]: the dialog is cleaned up first, then the error is
    replied, which may raise like any reply. *)
Definition handle_error (message : Message) (error : string) (user_id : Z)
    (replied : Outcome unit) : H unit :=
  cleanup_dialog user_id;;
  reply message ("⚠️ " +:+ error) replied.

(** [send_completion_message] *)
Definition send_completion_message (message : Message) (thread_link : string)
    (was_stopped : bool) (replied : Outcome unit) : H unit :=
  let action := if was_stopped then "остановлен" else "завершен" in
  reply message
    ("Диалог " +:+ action +:+ " и переслан в группу анализа." +:+ nl +:+
     "Вот ссылка на тред: " +:+ thread_link +:+ nl +:+ nl +:+
     "Пожалуйста, оцените сообщения бота:" +:+ nl +:+
     "- Поставьте реакции 👍/👎" +:+ nl +:+
     "- Ответьте на сообщение с комментарием" +:+ nl +:+
     "- Записать общее впечатление (можно голосовым)")
    replied.

(** The closure [send_message] of [cmd_test_dialog], called by the conductor
    with a text; [sent_msg] is the message the reply produced.  A reply that
    fails inside the closure is part of what the conductor's call does. *)
Definition send_func (conductor : DialogConductor) (sent_msg : Message) (β : Bot) : Bot :=
  mkBot (test_dialogs β)
        (alter (λ messages, messages ++ [sent_msg])
               (from_user_id (origin conductor)) (dialog_messages β))
        (replies β ++ [(message_id (origin conductor),
                        default EmptyString (text sent_msg))])
        (group_posts β).

(** One call of a method of the conductor. *)
Definition call_conductor {A : Type} (conductor : DialogConductor) (run : Run A) : H A :=
  modify (λ β, List.fold_left (λ β m, send_func conductor m β) (sent run) β);;
  await (result run).

(** [create_forum_topic] *)
Definition create_forum_topic (client : Client) : H (Z * Z) :=
  channel_peer ← await (resolve_peer client);
  topic_id ← await (create_topic client);
  if bool_decide (topic_id = 0) then mret (0, 0)
  else mret (topic_id, channel_peer).

(** The text of [create_thread_message]. *)
Definition thread_message_text (messages : list Message) (status : DialogStatus) : string :=
  let first := default (mkMessage 0 0 EmptyString None EmptyString) (head messages) in
  "📊 Информация о диалоге:" +:+ nl +:+
  "- Продавец: " +:+ first_name first +:+ nl +:+
  "- Дата: " +:+ date first +:+ nl +:+
  "- Итог: " +:+ result_tag status +:+ " - " +:+ tag_description (result_tag status)
    +:+ nl +:+ nl +:+
  "💬 Диалог ниже." +:+ nl +:+
  "Вы можете:" +:+ nl +:+
  "- Ответить на конкретное сообщение с комментарием" +:+ nl +:+
  "- Поставить реакцию на сообщение бота" +:+ nl +:+
  "- Записать общее впечатление (можно голосовым)".

(** [create_thread_message]: the id of the message the client sent. *)
Definition create_thread_message (client : Client) (group_id topic_id : Z)
    (messages : list Message) (status : DialogStatus) : H Z :=
  thread_msg_id ← await (send_message client);
  modify (λ β, mkBot (test_dialogs β) (dialog_messages β) (replies β)
                     (group_posts β ++
                        [(group_id, topic_id, thread_message_text messages status)]));;
  mret thread_msg_id.

(** [forward_messages_to_topic]: whatever is raised is logged and dropped. *)
Definition forward_messages_to_topic (client : Client) : H unit :=
  try_except (await (forward_messages client)) (λ e, mret tt).

(** [f"https://t.me/c/{str(group.id)[4:]}/{topic_id}/{thread_msg.id}"] *)
Definition thread_link (group_id topic_id thread_msg_id : Z) : string :=
  "https://t.me/c/" +:+ slice_from 4 (pretty group_id) +:+ "/" +:+
  pretty topic_id +:+ "/" +:+ pretty thread_msg_id.

(** [forward_dialog_for_analysis]; [status] is what the call
    [conductor.get_current_status()] does: it returns a status or raises. *)
Definition forward_dialog_for_analysis (client : Client) (user_id : Z)
    (status : Outcome DialogStatus) : H string :=
  try_except
    (stored ← gets (λ β, (dialog_messages β !! user_id, test_dialogs β !! user_id));
     match stored with
     | (Some messages, Some conductor) =>
         if bool_decide (messages = []) then mret EmptyString else
         group ← await (get_chat client);
         match group with
         | None => mret EmptyString
         | Some group_id =>
             if bool_decide (group_id = 0) then mret EmptyString else
             topic ← create_forum_topic client;
             if bool_decide (topic.1 = 0) then mret EmptyString else
             current ← await status;
             thread_msg_id ← create_thread_message client group_id topic.1
                               messages current;
             forward_messages_to_topic client;;
             mret (thread_link group_id topic.1 thread_msg_id)
         end
     | _ => mret EmptyString
     end)
    (λ e, mret EmptyString).

(** Every step of [forward_dialog_for_analysis] before the forwarding call
    goes through: the user has a dialog with stored messages, the group is
    found with a non-zero id, its peer is resolved, the topic is created with
    a non-zero id, the conductor gives its status and the thread message is
    sent. *)
Definition forwarded (client : Client) (user_id : Z)
    (status : Outcome DialogStatus) (β : Bot) (messages : list Message)
    (current : DialogStatus) (group_id topic_id thread_msg_id : Z) : Prop :=
  dialog_messages β !! user_id = Some messages ∧ messages ≠ []
  ∧ is_Some (test_dialogs β !! user_id)
  ∧ get_chat client = Returns (Some group_id) ∧ group_id ≠ 0
  ∧ (∃ peer, resolve_peer client = Returns peer)
  ∧ create_topic client = Returns topic_id ∧ topic_id ≠ 0
  ∧ status = Returns current
  ∧ send_message client = Returns thread_msg_id.

(** [cmd_test_dialog]; [constructed] is the outcome of building the
    conductor, [start] what [conductor.start_dialog()] does.  In each
    handler [replied] is the outcome of the first reply the handler itself
    makes, and [error_replied] that of the reply of [handle_error] in its
    [except] clause. *)
Definition cmd_test_dialog (message : Message) (constructed : Outcome unit)
    (start : Run unit) (replied error_replied : Outcome unit) : H unit :=
  let user_id := from_user_id message in
  known ← gets (λ β, test_dialogs β !! user_id);
  if known is Some _ then
    reply message
      "⚠️ У вас уже есть активный тестовый диалог. Дождитесь его завершения."
      replied
  else
    try_except
      (await constructed;;
       modify (λ β, mkBot (<[user_id := mkConductor message]> (test_dialogs β))
                          (dialog_messages β) (replies β) (group_posts β));;
       modify (λ β, mkBot (test_dialogs β)
                          (<[user_id := [message]]> (dialog_messages β))
                          (replies β) (group_posts β));;
       call_conductor (mkConductor message) start)
      (λ e, handle_error message
              "Не удалось запустить тестовый диалог. Попробуйте позже." user_id
              error_replied).

(** [cmd_stop_dialog] *)
Definition cmd_stop_dialog (message : Message) (client : Client)
    (status : Outcome DialogStatus) (replied error_replied : Outcome unit) :
    H unit :=
  let user_id := from_user_id message in
  known ← gets (λ β, test_dialogs β !! user_id);
  if known is Some _ then
    try_except
      (link ← forward_dialog_for_analysis client user_id status;
       cleanup_dialog user_id;;
       send_completion_message message link true replied)
      (λ e, handle_error message "Произошла ошибка при остановке диалога." user_id
              error_replied)
  else reply message "У вас нет активного тестового диалога." replied.

(** [message.text.startswith("/")]; on a message without text the attribute
    access on [None] raises. *)
Definition text_startswith_slash (message : Message) : H bool :=
  match text message with
  | Some body => mret (String.prefix "/" body)
  | None => await (Raises (mkException AttributeError
              "'NoneType' object has no attribute 'startswith'"))
  end.

(** [if error:] on the second component of what [handle_message] returns. *)
Definition truthy (error : option string) : bool :=
  match error with
  | None | Some EmptyString => false
  | Some _ => true
  end.

(** [on_test_message]; [handled] is what [conductor.handle_message] does and
    returns: [(is_completed, error)]. *)
Definition on_test_message (message : Message) (handled : Run (bool * option string))
    (client : Client) (status : Outcome DialogStatus)
    (replied error_replied : Outcome unit) : H unit :=
  let user_id := from_user_id message in
  known ← gets (λ β, test_dialogs β !! user_id);
  match known with
  | None =>
      slash ← text_startswith_slash message;
      if negb slash then
        reply message
          "Тестовый диалог не активен. Используйте /test_dialog чтобы начать новый."
          replied
      else mret tt
  | Some conductor =>
      try_except
        (modify (λ β, mkBot (test_dialogs β)
                            (alter (λ messages, messages ++ [message]) user_id
                                   (dialog_messages β))
                            (replies β) (group_posts β));;
         answer ← call_conductor conductor handled;
         if truthy answer.2 then
           handle_error message
             ("Произошла ошибка при обработке сообщения: " +:+
              default EmptyString answer.2 +:+ nl +:+ "Диалог завершен.") user_id
             replied
         else if negb answer.1 then mret tt
         else
           link ← forward_dialog_for_analysis client user_id status;
           cleanup_dialog user_id;;
           send_completion_message message link false replied)
        (λ e, handle_error message
                "Произошла ошибка при обработке сообщения. Диалог завершен." user_id
                error_replied)
  end.

(** An update the bot receives, with what its environment does meanwhile. *)
Inductive Update : Type :=
  | TestDialog (message : Message) (constructed : Outcome unit) (start : Run unit)
      (replied error_replied : Outcome unit)
  | Stop (message : Message) (client : Client) (status : Outcome DialogStatus)
      (replied error_replied : Outcome unit)
  | Text (message : Message) (handled : Run (bool * option string))
      (client : Client) (status : Outcome DialogStatus)
      (replied error_replied : Outcome unit).

Definition handle (update : Update) : H unit :=
  match update with
  | TestDialog message constructed start replied error_replied =>
      cmd_test_dialog message constructed start replied error_replied
  | Stop message client status replied error_replied =>
      cmd_stop_dialog message client status replied error_replied
  | Text message handled client status replied error_replied =>
      on_test_message message handled client status replied error_replied
  end.

Definition handle_all (updates : list Update) (β : Bot) : Bot :=
  List.fold_left (λ β update, (handle update β).2) updates β.

(** Both dicts are empty when the module is loaded. *)
Definition initial : Bot := mkBot ∅ ∅ [] [].

(** The two dicts have the same keys. *)
Definition consistent (β : Bot) : Prop :=
  dom (test_dialogs β) = dom (dialog_messages β).

(** The conductor kept for a user is one made from a command of that
    user. *)
Definition well_keyed (β : Bot) : Prop :=
  ∀ user_id conductor,
    test_dialogs β !! user_id = Some conductor →
    from_user_id (origin conductor) = user_id.

End Testing.

(** ** More sample data *)

Module Fixture.

Import Sample.

(** An account that has been blocked. *)
Definition carol : Account :=
  mkAccount 3 "+15550003" (Some "1BVtsXq9Zz") BLOCKED None None 12.

(** An account whose id is in no row. *)
Definition ghost : Account :=
  mkAccount 9 "+15550009" None ACTIVE None None 0.

Definition mixed : World := mkWorld [alice; bob; carol] ∅ ∅ [].

(** Alice already has a client in the cache. *)
Definition warm : World := mkWorld [alice; bob] ∅ {[1 := mkClient alice]} [].

(** The connect raises; nothing else is wrong. *)
Definition unreachable : Session :=
  mkSession (Raises flood) (Returns true) (Returns true) (Returns tt)
            (Returns None).

End Fixture.

(** ** Sample data for the handlers *)

Module Studio.

Import Testing.

Definition command : Message :=
  mkMessage 10 7 "Иван" (Some "/test_dialog") "2025-01-15".

Definition greeting : Message :=
  mkMessage 11 0 "Bot" (Some "Добрый день!") "2025-01-15".

Definition question : Message :=
  mkMessage 12 7 "Иван" (Some "Сколько стоит?") "2025-01-15".

Definition answer : Message :=
  mkMessage 13 0 "Bot" (Some "Расскажу подробнее.") "2025-01-15".

Definition stop_command : Message :=
  mkMessage 14 7 "Иван" (Some "/stop") "2025-01-15".

(** A photo from a user who has no dialog. *)
Definition photo : Message :=
  mkMessage 15 8 "Пётр" None "2025-01-15".

(** The state after [/test_dialog] from user 7 and the greeting. *)
Definition talking : Bot :=
  mkBot {[7 := mkConductor command]} {[7 := [command; greeting]]}
        [(10, "Добрый день!")] [].

(** A client for which every call goes well. *)
Definition reachable : Client :=
  mkClient (Returns (Some (-1001234567890))) (Returns 555) (Returns 42)
           (Returns 77) (Returns tt).

(** The conductor answers and the dialog goes on. *)
Definition goes_on : Run (bool * option string) :=
  mkRun [answer] (Returns (false, None)).

End Studio.

Section Core.

(** [from config import MAX_DAILY_MESSAGES] *)
Variable MAX_DAILY_MESSAGES : Z.

(** Modelled from the spec: the Safety Policy ([accounts/safety.py],
    [AccountSafety.can_send_message]) is a "pure decision component: given an
    account's counters/timestamps, decides eligibility to send". *)
Variable can_send_message : Account → bool.

(** ** db/models.py: Account.is_available *)

(** [return (self.status == AccountStatus.ACTIVE.value
            and self.daily_messages < MAX_DAILY_MESSAGES)] *)
Definition is_available (self : Account) : bool :=
  bool_decide (status self = ACTIVE) && (daily_messages self <? MAX_DAILY_MESSAGES).

(** ** accounts/monitoring.py: AccountMonitor *)

(** [AccountMonitor._mark_account_blocked]: the status is written only when
    the row exists; the notifier is called and the counter popped in any
    case.  [account] is a row object of the store, shared with it (see
    [current_status] below): when the notifier is called the object carries
    the status that has just been written. *)
Definition _mark_account_blocked (account_id : Z) (reason : string) : M unit :=
  account ← gets (λ σ, get_account_by_id account_id (db σ));
  (if account is Some _
   then modify (with_db (update_account_status_by_id account_id BLOCKED))
   else mret tt);;
  modify (emit (NotifyBlocked (set_status BLOCKED <$> account) reason));;
  modify (with_error_counts (delete account_id)).

(** [AccountMonitor._mark_account_disabled]: here the notifier call and the
    pop of the counter are inside [if account:].  The notifier is given the
    shared row object, which carries the status just written. *)
Definition _mark_account_disabled (account_id : Z) (reason : string) : M unit :=
  account ← gets (λ σ, get_account_by_id account_id (db σ));
  match account with
  | Some row =>
      modify (with_db (update_account_status_by_id account_id DISABLED));;
      modify (emit (NotifyDisabled (set_status DISABLED row) reason));;
      modify (with_error_counts (delete account_id))
  | None => mret tt
  end.

(** [AccountMonitor.check_account].  The [try] body holds the connect, the
    [get_me] probe and the reset of the counter; the first handler is the one
    for the four block signals, the second the one for every other
    [Exception]; [finally] disconnects. *)
Definition check_account (account : Account) (session : Session) : M bool :=
  try_finally
    (try_except
       (connected ← await (connect session);
        if negb connected then mret false else
        me ← await (get_me session);
        if negb me then mret false else
        modify (with_error_counts (delete (id account)));;
        mret true)
       (λ e,
          if is_block_signal e then
            _mark_account_blocked (id account) (exc_str e);;
            mret false
          else
            error_count ← gets (λ σ,
              (default 0 (_error_counts σ !! id account) + 1)%nat);
            modify (with_error_counts <[id account := error_count]>);;
            if bool_decide (3 ≤ error_count)%nat then
              _mark_account_disabled (id account)
                ("3 consecutive errors: " +:+ exc_str e);;
              mret false
            else mret false))
    (modify (emit (Disconnect (id account)))).

(** Modelled from the spec: the sweep "tallies outcomes by re-reading
    resulting status".  [account.status] in [check_all_accounts] is read on
    the object the store handed out, after the check; the store's rows are
    shared objects, so the read gives the row's current status. *)
Definition current_status (account : Account) (σ : World) : AccountStatus :=
  match get_account_by_id (id account) (db σ) with
  | Some row => status row
  | None => status account
  end.

Definition count_active (stats : Stats) : Stats :=
  mkStats (total stats) (S (active stats)) (disabled stats) (blocked stats).

Definition count_disabled (stats : Stats) : Stats :=
  mkStats (total stats) (active stats) (S (disabled stats)) (blocked stats).

Definition count_blocked (stats : Stats) : Stats :=
  mkStats (total stats) (active stats) (disabled stats) (S (blocked stats)).

(** The [for account in accounts:] loop of [check_all_accounts];
    [sessions i] is the behaviour of the session opened for account [i]. *)
Fixpoint check_each (accounts : list Account) (sessions : Z → Session)
    (stats : Stats) : M Stats :=
  match accounts with
  | [] => mret stats
  | account :: rest =>
      ok ← check_account account (sessions (id account));
      st ← gets (current_status account);
      check_each rest sessions
        (if ok : bool then count_active stats
         else if bool_decide (st = BLOCKED) then count_blocked stats
         else count_disabled stats)
  end.

(** [AccountMonitor.check_all_accounts] *)
Definition check_all_accounts (sessions : Z → Session) : M Stats :=
  accounts ← gets (λ σ, get_active_accounts (db σ));
  stats ← check_each accounts sessions (mkStats (length accounts) 0 0 0);
  modify (emit (NotifyStatusReport stats));;
  mret stats.

(** ** accounts/manager.py: AccountManager *)

(** A store call placed inside a [try]: it raises without effect, or
    completes. *)
Definition store_call (fault : option PyException)
    (f : list Account → list Account) : M unit :=
  match fault with
  | Some e => raise e
  | None => modify (with_db f)
  end.

(** The attributes an [AccountManager] instance can be asked for: the three
    that [__init__] binds ([self.db], [self.safety], [self._active_clients])
    and the methods of the class. *)
Definition AccountManager_attributes : list string :=
  ["db"; "safety"; "_active_clients";
   "add_account"; "authorize_account"; "get_available_account";
   "send_message"; "update_account_status"]%string.

(** [self.<name>]: Python raises [AttributeError] for a name that is neither
    bound on the instance nor found on the class. *)
Definition self_attribute (name : string) : M unit :=
  if bool_decide (name ∈ AccountManager_attributes) then mret tt
  else raise (mkException AttributeError
         ("'AccountManager' object has no attribute '" +:+ name +:+ "'")).

(** [queries.create_account(phone)] inside the [try] of [add_account]: it
    raises, returns nothing ([Returns false]: no row is made), or appends the
    new row and returns it. *)
Definition create_account (p : string) (created : Outcome bool) : M (option Account) :=
  match created with
  | Raises e => raise e
  | Returns false => mret None
  | Returns true =>
      account ← gets (λ σ, new_account p (db σ));
      modify (with_db (λ rows, rows ++ [account]));;
      mret (Some account)
  end.

(** [AccountManager.add_account] *)
Definition add_account (p : string) (session : Session)
    (created : Outcome bool) : M (option Account) :=
  try_except
    (account ← create_account p created;
     match account with
     | None => mret None
     | Some account =>
         connected ← await (connect session);
         if negb connected then mret None else
         modify (emit (SendCodeRequest p));;
         await (send_code_request session);;
         mret (Some account)
     end)
    (λ e, mret None).

(** [AccountManager.authorize_account].  Its first statement reads
    [self.queries]. *)
Definition authorize_account (p code : string) (session : Session) : M bool :=
  try_except
    (self_attribute "queries";;
     account ← gets (λ σ, get_account_by_phone p (db σ));
     match account with
     | None => mret false
     | Some account =>
         connected ← await (connect session);
         if negb connected then mret false else
         session_string ← await (authorize session);
         match session_string with
         | None | Some EmptyString => mret false
         | Some credential =>
             modify (with_db (update_session (id account) credential));;
             gets (λ σ, bool_decide (is_Some (get_account_by_id (id account) (db σ))))
         end
     end)
    (λ e, mret false).

(** [AccountManager.get_available_account]: the first active account that
    passes both tests. *)
Definition get_available_account : M (option Account) :=
  accounts ← gets (λ σ, get_active_accounts (db σ));
  mret (List.find (λ account, is_available account && can_send_message account)
          accounts).

(** [AccountManager.send_message].  [send] is the part after the client has
    been obtained: the safety check, the remote send and, on success, the
    two updates.  [safety.record_message] is kept as a logged call: what it
    records belongs to the policy ([accounts/safety.py]), not to the table. *)
Definition send_message (account : Account) (username text : string)
    (session : Session) (store_fault : option PyException) : M bool :=
  try_except
    (let send : M bool :=
       if negb (can_send_message account) then mret false else
       success ← await (client_send_message session);
       (if success : bool then
          modify (emit (IncrementMessages (id account)));;
          store_call store_fault (increment_messages (id account));;
          modify (emit (RecordMessage account))
        else mret tt);;
       mret success in
     client ← gets (λ σ, _active_clients σ !! id account);
     match client with
     | Some _ => send
     | None =>
         connected ← await (connect session);
         if negb connected then mret false else
         modify (with_active_clients <[id account := mkClient account]>);;
         send
     end)
    (λ e, mret false).

(** [AccountManager.update_account_status]: the administrative override,
    delegated to the store. *)
Definition update_account_status (p : string) (s : AccountStatus)
    (store_fault : option PyException) : M bool :=
  try_except
    (store_call store_fault (update_account_status_by_phone p s);;
     gets (λ σ, bool_decide (is_Some (get_account_by_phone p (db σ)))))
    (λ e, mret false).

(** ** Sequences of operations of the core *)

(** The operations of the Health Monitor and of the Orchestrator's send
    path, each with the behaviour of its environment during the call. *)
Inductive CoreOp : Type :=
  | CheckAccount (account : Account) (session : Session)
  | CheckAllAccounts (sessions : Z → Session)
  | GetAvailableAccount
  | SendMessage (account : Account) (username text : string)
      (session : Session) (store_fault : option PyException).

Definition run_op (op : CoreOp) (σ : World) : World :=
  match op with
  | CheckAccount account session => snd (check_account account session σ)
  | CheckAllAccounts sessions => snd (check_all_accounts sessions σ)
  | GetAvailableAccount => snd (get_available_account σ)
  | SendMessage account username text session store_fault =>
      snd (send_message account username text session store_fault σ)
  end.

Definition run_ops (ops : list CoreOp) (σ : World) : World :=
  List.fold_left (λ σ op, run_op op σ) ops σ.

(** ** Vocabulary of the statements *)

(** The probe of [check_account] raises [e]: the connect does, or the session
    connects and [get_me] does. *)
Definition probe_raises (session : Session) (e : PyException) : Prop :=
  connect session = Raises e
  ∨ (connect session = Returns true ∧ get_me session = Raises e).

(** The probe fails without raising: the connect returns false, or the
    session connects and [get_me] returns a falsy value. *)
Definition probe_falsy (session : Session) : Prop :=
  connect session = Returns false
  ∨ (connect session = Returns true ∧ get_me session = Returns false).

(** The probe succeeds. *)
Definition probe_alive (session : Session) : Prop :=
  connect session = Returns true ∧ get_me session = Returns true.

(** What the sweep sees of each account, in order: whether its check returned
    true, and the status read on the account after that check. *)
Fixpoint sweep_observations (accounts : list Account) (sessions : Z → Session)
    (σ : World) : list (bool * AccountStatus) :=
  match accounts with
  | [] => []
  | account :: rest =>
      let '(o, σ') := check_account account (sessions (id account)) σ in
      (if o is Returns true then true else false, current_status account σ')
        :: sweep_observations rest sessions σ'
  end.

(** The column of the tally an observation belongs to: active if the check
    succeeded, blocked if the status read is blocked, disabled otherwise. *)
Definition counted_as (obs : bool * AccountStatus) : AccountStatus :=
  if obs.1 then ACTIVE
  else if bool_decide (obs.2 = BLOCKED) then BLOCKED
  else DISABLED.

Definition tally (s : AccountStatus) (obs : list (bool * AccountStatus)) : nat :=
  length (List.filter (λ o, bool_decide (counted_as o = s)) obs).

(** The column a session's behaviour leads to, for an account that is
    active when it is checked: the probe succeeds, ends in a block signal, or
    fails in any other way. *)
Definition session_verdict (session : Session) : AccountStatus :=
  match connect session with
  | Returns true =>
      match get_me session with
      | Returns true => ACTIVE
      | Returns false => DISABLED
      | Raises e => if is_block_signal e then BLOCKED else DISABLED
      end
  | Returns false => DISABLED
  | Raises e => if is_block_signal e then BLOCKED else DISABLED
  end.

(** No row appears or disappears, and a row whose status changes ends in
    disabled or blocked. *)
Definition downward (rows rows' : list Account) : Prop :=
  ∀ i, status_of i rows' = status_of i rows
       ∨ (is_Some (status_of i rows)
          ∧ (status_of i rows' = Some DISABLED ∨ status_of i rows' = Some BLOCKED)).

(** The remote send of [send_message] is reached and succeeds: a client is
    cached or the new one connects, the safety policy lets the account send,
    and the session's send returns a truthy value. *)
Definition remote_send_succeeds (account : Account) (session : Session)
    (σ : World) : Prop :=
  (is_Some (_active_clients σ !! id account) ∨ connect session = Returns true)
  ∧ can_send_message account = true
  ∧ client_send_message session = Returns true.

(** The calls logged between two states of the world. *)
Definition new_events (σ σ' : World) : list Event :=
  drop (length (log σ)) (log σ').

Definition is_record_message (ev : Event) : bool :=
  if ev is RecordMessage _ then true else false.

Definition is_increment_messages (ev : Event) : bool :=
  if ev is IncrementMessages _ then true else false.

(** How many times [safety.record_message] was called. *)
Definition record_calls (σ σ' : World) : nat :=
  length (List.filter is_record_message (new_events σ σ')).

(** How many times [queries.increment_messages] was called. *)
Definition increment_calls (σ σ' : World) : nat :=
  length (List.filter is_increment_messages (new_events σ σ')).

(** ** Vocabulary of the further properties *)

(** The probe raises an exception that is not a block signal. *)
Definition probe_errors (session : Session) : Prop :=
  ∃ e, probe_raises session e ∧ is_block_signal e = false.

(** [check_account] called on the same account once for each session of the
    list, in order. *)
Definition check_repeatedly (account : Account) (sessions : list Session)
    (σ : World) : World :=
  List.fold_left (λ σ session, (check_account account session σ).2) sessions σ.

(** The count the monitor holds for an id: [self._error_counts.get(id, 0)]. *)
Definition error_count (account_id : Z) (σ : World) : nat :=
  default 0%nat (_error_counts σ !! account_id).

Definition is_disconnect (ev : Event) : bool :=
  if ev is Disconnect _ then true else false.

Definition is_status_report (ev : Event) : bool :=
  if ev is NotifyStatusReport _ then true else false.

(** Row by row: the id, the phone and the credential are kept, the status
    is kept or written to disabled or blocked, and the daily count does not
    go down. *)
Definition row_kept (r r' : Account) : Prop :=
  id r' = id r ∧ phone r' = phone r ∧ session_string r' = session_string r
  ∧ (status r' = status r ∨ status r' = DISABLED ∨ status r' = BLOCKED)
  ∧ daily_messages r ≤ daily_messages r'.

Definition rows_kept (rows rows' : list Account) : Prop :=
  Forall2 row_kept rows rows'.

(** The test [get_available_account] applies to each active account. *)
Definition usable (account : Account) : bool :=
  is_available account && can_send_message account.

(** A sequence in which accounts are checked only by sweeps:
    [check_account] is reached through [check_all_accounts] alone. *)
Definition through_sweeps (ops : list CoreOp) : Prop :=
  Forall (λ op, if op is CheckAccount _ _ then False else True) ops.

(** ** Tactics that run the method bodies *)

Ltac exec :=
  repeat (unfold check_account, _mark_account_blocked, _mark_account_disabled,
            try_finally, try_except, await, gets, modify, raise, store_call,
            mbind, M_bind, mret, M_ret in *; cbn in *).

Ltac exec_send :=
  unfold send_message;
  repeat (unfold try_except, await, gets, modify, raise, store_call,
            mbind, M_bind, mret, M_ret in *; cbn in *).

(** * Properties *)

(** ** The store *)

Lemma get_account_by_id_Some i rows a :
  get_account_by_id i rows = Some a → id a = i ∧ In a rows.
Proof.
  unfold get_account_by_id. intros [Hin Hid]%List.find_some.
  apply bool_decide_eq_true in Hid. done.
Qed.

Lemma get_account_by_id_map (f : Account → Account) i rows :
  (∀ a, id (f a) = id a) →
  get_account_by_id i (List.map f rows) = f <$> get_account_by_id i rows.
Proof.
  intros Hf. unfold get_account_by_id.
  induction rows as [|a rows IH]; [done|].
  simpl. rewrite Hf. by destruct (bool_decide (id a = i)).
Qed.

Lemma status_of_update i j s rows :
  status_of i (update_account_status_by_id j s rows)
  = (λ st, if bool_decide (i = j) then s else st) <$> status_of i rows.
Proof.
  unfold status_of, update_account_status_by_id.
  rewrite get_account_by_id_map; [|by intros a; case_bool_decide].
  destruct (get_account_by_id i rows) as [a|] eqn:Ha; [|done].
  apply get_account_by_id_Some in Ha as [<- _]. cbn.
  by case_bool_decide.
Qed.

Lemma status_of_update_eq i s rows :
  is_Some (status_of i rows) →
  status_of i (update_account_status_by_id i s rows) = Some s.
Proof.
  intros [st Hst]. rewrite status_of_update, Hst. cbn.
  by rewrite bool_decide_eq_true_2.
Qed.

Lemma status_of_update_ne i j s rows :
  i ≠ j → status_of i (update_account_status_by_id j s rows) = status_of i rows.
Proof.
  intros Hne. rewrite status_of_update.
  destruct (status_of i rows); [|done]. cbn.
  by rewrite bool_decide_eq_false_2.
Qed.

Lemma status_of_increment_messages i j rows :
  status_of i (increment_messages j rows) = status_of i rows.
Proof.
  unfold status_of, increment_messages.
  rewrite get_account_by_id_map; [|by intros a; case_bool_decide].
  destruct (get_account_by_id i rows) as [a|]; [|done].
  cbn. by case_bool_decide.
Qed.

(** ** The two marking helpers *)

Lemma _mark_account_blocked_run i reason σ :
  ∃ σ', _mark_account_blocked i reason σ = (Returns tt, σ')
    ∧ db σ' = (if get_account_by_id i (db σ) is Some _
               then update_account_status_by_id i BLOCKED (db σ) else db σ)
    ∧ _error_counts σ' = delete i (_error_counts σ)
    ∧ _active_clients σ' = _active_clients σ.
Proof.
  exec. destruct (get_account_by_id i (db σ)); eexists; (split; [done|]); done.
Qed.

Lemma _mark_account_disabled_run i reason σ :
  ∃ σ', _mark_account_disabled i reason σ = (Returns tt, σ')
    ∧ db σ' = (if get_account_by_id i (db σ) is Some _
               then update_account_status_by_id i DISABLED (db σ) else db σ)
    ∧ _error_counts σ' = (if get_account_by_id i (db σ) is Some _
                          then delete i (_error_counts σ) else _error_counts σ)
    ∧ _active_clients σ' = _active_clients σ.
Proof.
  exec. destruct (get_account_by_id i (db σ)); eexists; (split; [done|]); done.
Qed.

(** ** [check_account], case by case *)

Lemma check_account_alive account session σ :
  probe_alive session →
  check_account account session σ
  = (Returns true,
     emit (Disconnect (id account)) (with_error_counts (delete (id account)) σ)).
Proof. intros [Hc Hg]. exec. rewrite Hc. cbn. by rewrite Hg. Qed.

Lemma check_account_falsy account session σ :
  probe_falsy session →
  check_account account session σ
  = (Returns false, emit (Disconnect (id account)) σ).
Proof.
  intros [Hc|[Hc Hg]]; exec; rewrite Hc; cbn; [done|]. by rewrite Hg.
Qed.

Lemma check_account_block_signal account session e σ :
  probe_raises session e → is_block_signal e = true →
  ∃ σ', check_account account session σ = (Returns false, σ')
    ∧ db σ' = (if get_account_by_id (id account) (db σ) is Some _
               then update_account_status_by_id (id account) BLOCKED (db σ)
               else db σ)
    ∧ _error_counts σ' = delete (id account) (_error_counts σ)
    ∧ _active_clients σ' = _active_clients σ.
Proof.
  intros Hp He.
  destruct Hp as [Hc|[Hc Hg]]; exec; rewrite Hc; cbn; [|rewrite Hg; cbn];
    rewrite He; destruct (get_account_by_id (id account) (db σ));
    eexists; (split; [done|]); done.
Qed.

Lemma check_account_error account session e σ :
  probe_raises session e → is_block_signal e = false →
  let n := (default 0 (_error_counts σ !! id account) + 1)%nat in
  ∃ σ', check_account account session σ = (Returns false, σ')
    ∧ _active_clients σ' = _active_clients σ
    ∧ if bool_decide (3 ≤ n)%nat && bool_decide (is_Some (status_of (id account) (db σ)))
      then db σ' = update_account_status_by_id (id account) DISABLED (db σ)
           ∧ _error_counts σ' = delete (id account) (_error_counts σ)
      else db σ' = db σ
           ∧ _error_counts σ' = <[id account := n]> (_error_counts σ).
Proof.
  intros Hp He n. unfold status_of.
  destruct Hp as [Hc|[Hc Hg]]; exec; rewrite Hc; cbn; [|rewrite Hg; cbn];
    rewrite He; fold n; destruct (bool_decide (3 ≤ n)%nat); cbn;
    try (eexists; (split; [done|]); done);
    destruct (get_account_by_id (id account) (db σ)); cbn;
    eexists; (split; [done|]); cbn; rewrite ?delete_insert_eq; done.
Qed.

Lemma is_block_signal_classes e :
  is_block_signal e = true
  ↔ exc_class e ∈ [UserDeactivated; SessionRevoked; AuthKeyUnregistered;
                   UserDeactivatedBan].
Proof.
  unfold is_block_signal. rewrite !elem_of_cons, elem_of_nil.
  destruct (exc_class e); intuition congruence.
Qed.

(** ** The Health Monitor's single check *)

(** C10. When the session's connect returns false, or the identity probe
    returns a falsy value without raising, [check_account] returns false and
    leaves the whole error-counter map and the whole accounts table as they
    were: such a failure adds nothing to the count of consecutive errors and
    writes no status. *)
Theorem check_account_falsy_frame account session σ :
  probe_falsy session →
  ∃ σ', check_account account session σ = (Returns false, σ')
    ∧ _error_counts σ' = _error_counts σ
    ∧ db σ' = db σ.
Proof.
  intros Hp. rewrite (check_account_falsy _ _ _ Hp). by eexists.
Qed.

(** C3. When the probe of [check_account] raises one of the four block
    signals (UserDeactivated, SessionRevoked, AuthKeyUnregistered,
    UserDeactivatedBan), then whatever the error counters hold, and after
    this single failure, the call returns false, the account's row (when the
    store has it) is in status blocked, the error counter of that id is
    cleared, and no other row's status or other id's counter is touched. *)
Theorem check_account_block_signal_blocks account session e σ :
  probe_raises session e →
  exc_class e ∈ [UserDeactivated; SessionRevoked; AuthKeyUnregistered;
                 UserDeactivatedBan] →
  ∃ σ', check_account account session σ = (Returns false, σ')
    ∧ (is_Some (status_of (id account) (db σ)) →
       status_of (id account) (db σ') = Some BLOCKED)
    ∧ _error_counts σ' !! id account = None
    ∧ (∀ j, j ≠ id account →
         status_of j (db σ') = status_of j (db σ)
         ∧ _error_counts σ' !! j = _error_counts σ !! j).
Proof.
  intros Hp He%is_block_signal_classes.
  destruct (check_account_block_signal account session e σ Hp He)
    as (σ' & Hrun & Hdb & Hcnt & _).
  exists σ'. split; [done|]. rewrite Hcnt, Hdb. split; [|split].
  - intros Hsome. pose proof Hsome as [a Ha]%fmap_is_Some. rewrite Ha.
    by apply status_of_update_eq.
  - apply lookup_delete_eq.
  - intros j Hj. split; [|by apply lookup_delete_ne].
    destruct (get_account_by_id (id account) (db σ)); [|done].
    by apply status_of_update_ne.
Qed.

(** C4. Starting with no recorded error for the account and with its row
    active, three calls of [check_account] whose probes raise an exception
    that is not a block signal, with no other call in between, all return
    false; after the first and after the second the accounts table is as it
    was and the counter holds 1 and 2; after the third the row is in status
    disabled and the counter of that id is cleared. *)
Theorem check_account_three_errors_disable account s1 s2 s3 e1 e2 e3 σ :
  probe_raises s1 e1 → is_block_signal e1 = false →
  probe_raises s2 e2 → is_block_signal e2 = false →
  probe_raises s3 e3 → is_block_signal e3 = false →
  _error_counts σ !! id account = None →
  status_of (id account) (db σ) = Some ACTIVE →
  ∃ σ1 σ2 σ3,
    check_account account s1 σ = (Returns false, σ1)
    ∧ check_account account s2 σ1 = (Returns false, σ2)
    ∧ check_account account s3 σ2 = (Returns false, σ3)
    ∧ (db σ1 = db σ ∧ _error_counts σ1 !! id account = Some 1%nat)
    ∧ (db σ2 = db σ ∧ _error_counts σ2 !! id account = Some 2%nat)
    ∧ status_of (id account) (db σ3) = Some DISABLED
    ∧ _error_counts σ3 !! id account = None.
Proof.
  intros Hp1 He1 Hp2 He2 Hp3 He3 Hcnt Hst.
  destruct (check_account_error account s1 e1 σ Hp1 He1)
    as (σ1 & Hrun1 & _ & H1).
  rewrite Hcnt in H1. cbn in H1. destruct H1 as [Hdb1 Hcnt1].
  destruct (check_account_error account s2 e2 σ1 Hp2 He2)
    as (σ2 & Hrun2 & _ & H2).
  rewrite Hcnt1, lookup_insert_eq in H2. cbn in H2. destruct H2 as [Hdb2 Hcnt2].
  destruct (check_account_error account s3 e3 σ2 Hp3 He3)
    as (σ3 & Hrun3 & _ & H3).
  rewrite Hcnt2, lookup_insert_eq, Hdb2, Hdb1, Hst in H3. cbn in H3.
  destruct H3 as [Hdb3 Hcnt3].
  exists σ1, σ2, σ3. repeat (split; [done|]).
  rewrite Hcnt1, Hcnt2, Hcnt3, Hdb1, Hdb2, Hdb3, !lookup_insert_eq.
  repeat (split; [done|]). split.
  - apply status_of_update_eq. by rewrite Hst.
  - apply lookup_delete_eq.
Qed.

Lemma session_cases session :
  probe_alive session ∨ probe_falsy session ∨ ∃ e, probe_raises session e.
Proof.
  unfold probe_alive, probe_falsy, probe_raises.
  destruct (connect session) as [[|]|e]; destruct (get_me session) as [[|]|e'];
    eauto 7.
Qed.

(** In the model every call of [check_account] returns; it leaves the
    client cache alone, and the accounts table is either as before or has
    the account's row written to disabled or blocked. *)
Lemma check_account_run account session σ :
  ∃ b σ', check_account account session σ = (Returns b, σ')
    ∧ _active_clients σ' = _active_clients σ
    ∧ (db σ' = db σ
       ∨ ∃ s, (s = DISABLED ∨ s = BLOCKED)
              ∧ db σ' = update_account_status_by_id (id account) s (db σ)).
Proof.
  destruct (session_cases session) as [Ha|[Hf|[e Hr]]].
  - rewrite (check_account_alive _ _ _ Ha). eauto 6.
  - rewrite (check_account_falsy _ _ _ Hf). eauto 6.
  - destruct (is_block_signal e) eqn:He.
    + destruct (check_account_block_signal account session e σ Hr He)
        as (σ' & -> & Hdb & _ & Hcl).
      exists false, σ'. repeat (split; [done|]). rewrite Hdb.
      destruct (get_account_by_id (id account) (db σ)); eauto.
    + destruct (check_account_error account session e σ Hr He)
        as (σ' & -> & Hcl & Hcase).
      exists false, σ'. repeat (split; [done|]).
      destruct (_ && _); destruct Hcase as [-> _]; eauto.
Qed.

(** ** The sweep *)

Lemma tally_cons s o obs :
  tally s (o :: obs)
  = ((if bool_decide (counted_as o = s) then 1 else 0) + tally s obs)%nat.
Proof. unfold tally. cbn. by destruct (bool_decide (counted_as o = s)). Qed.

Lemma check_each_tally sessions accounts stats0 σ :
  ∃ stats σ', check_each accounts sessions stats0 σ = (Returns stats, σ')
    ∧ total stats = total stats0
    ∧ active stats
      = (active stats0 + tally ACTIVE (sweep_observations accounts sessions σ))%nat
    ∧ disabled stats
      = (disabled stats0 + tally DISABLED (sweep_observations accounts sessions σ))%nat
    ∧ blocked stats
      = (blocked stats0 + tally BLOCKED (sweep_observations accounts sessions σ))%nat.
Proof.
  revert stats0 σ. induction accounts as [|account rest IH]; intros stats0 σ.
  - exists stats0, σ. cbn. unfold tally. cbn. by rewrite !Nat.add_0_r.
  - cbn [check_each sweep_observations].
    destruct (check_account_run account (sessions (id account)) σ)
      as (b & σ1 & Hrun & _).
    unfold mbind at 1, M_bind at 1. rewrite Hrun.
    unfold mbind at 1, M_bind at 1, gets at 1.
    match goal with |- context [check_each rest sessions ?st σ1] =>
      destruct (IH st σ1) as (stats & σ' & -> & Ht & Ha & Hd & Hb) end.
    exists stats, σ'. split; [done|].
    rewrite Ht, Ha, Hd, Hb, !tally_cons. unfold counted_as. cbn [fst snd].
    destruct b; [|destruct (bool_decide (current_status account σ1 = BLOCKED))];
      repeat case_bool_decide; try done; cbn; lia.
Qed.

Lemma check_all_accounts_unfold sessions σ stats σ1 :
  check_each (get_active_accounts (db σ)) sessions
    (mkStats (length (get_active_accounts (db σ))) 0 0 0) σ = (Returns stats, σ1) →
  check_all_accounts sessions σ
  = (Returns stats, emit (NotifyStatusReport stats) σ1).
Proof.
  intros Heach. unfold check_all_accounts.
  unfold mbind at 1, M_bind at 1, gets at 1.
  unfold mbind at 1, M_bind at 1. by rewrite Heach.
Qed.

Lemma tally_columns obs :
  (tally ACTIVE obs + tally DISABLED obs + tally BLOCKED obs)%nat = length obs.
Proof.
  induction obs as [|o obs IH]; [done|].
  rewrite !tally_cons. cbn [length].
  destruct (counted_as o); repeat case_bool_decide; try done; lia.
Qed.

Lemma length_sweep_observations accounts sessions σ :
  length (sweep_observations accounts sessions σ) = length accounts.
Proof.
  revert σ. induction accounts as [|account rest IH]; intros σ; [done|].
  cbn. destruct (check_account account (sessions (id account)) σ) as [o σ'].
  cbn. by rewrite IH.
Qed.

(** C6. A sweep returns a tally of the accounts that the store gave as
    active when the sweep began: [total] is their number and is the sum of
    the three columns, and each of them is counted once, from what the sweep
    observed after its check: under active if the check returned true, under
    blocked if the status read after the check is blocked, under disabled
    otherwise. *)
Theorem check_all_accounts_tally sessions σ :
  ∃ stats σ', check_all_accounts sessions σ = (Returns stats, σ')
    ∧ let accounts := get_active_accounts (db σ) in
      let obs := sweep_observations accounts sessions σ in
      total stats = length accounts
      ∧ length obs = length accounts
      ∧ total stats = (active stats + disabled stats + blocked stats)%nat
      ∧ active stats = tally ACTIVE obs
      ∧ disabled stats = tally DISABLED obs
      ∧ blocked stats = tally BLOCKED obs.
Proof.
  unfold check_all_accounts.
  unfold mbind at 1, M_bind at 1, gets at 1.
  destruct (check_each_tally sessions (get_active_accounts (db σ))
              (mkStats (length (get_active_accounts (db σ))) 0 0 0) σ)
    as (stats & σ1 & Hrun & Ht & Ha & Hd & Hb).
  unfold mbind at 1, M_bind at 1. rewrite Hrun.
  eexists stats, _. split; [done|]. cbn in Ht, Ha, Hd, Hb. cbn zeta.
  rewrite length_sweep_observations, Ht, Ha, Hd, Hb.
  repeat (split; [done|]). split; [|done].
  by rewrite tally_columns, length_sweep_observations.
Qed.

(** *** The columns, from what the sessions did *)

Lemma current_status_status_of account σ :
  current_status account σ
  = default (status account) (status_of (id account) (db σ)).
Proof.
  unfold current_status, status_of.
  by destruct (get_account_by_id (id account) (db σ)).
Qed.

(** One check of an account whose row is active: the column it is counted
    under is the verdict of its session, and no other row changes status. *)
Lemma check_account_observation account session σ :
  status_of (id account) (db σ) = Some ACTIVE →
  ∃ b σ', check_account account session σ = (Returns b, σ')
    ∧ counted_as (b, current_status account σ') = session_verdict session
    ∧ ∀ j, j ≠ id account → status_of j (db σ') = status_of j (db σ).
Proof.
  intros Hact. unfold counted_as, session_verdict. cbn [fst snd].
  destruct (session_cases session) as [[Hc Hg]|[Hf|[e Hr]]].
  - rewrite (check_account_alive _ _ _ (conj Hc Hg)), Hc, Hg. by eexists _, _.
  - rewrite (check_account_falsy _ _ _ Hf).
    eexists _, _. split; [done|]. split; [|done].
    rewrite current_status_status_of. cbn. rewrite Hact. cbn.
    destruct Hf as [->|[-> ->]]; by case_bool_decide.
  - destruct (is_block_signal e) eqn:He.
    + destruct (check_account_block_signal account session e σ Hr He)
        as (σ' & -> & Hdb & _).
      pose proof Hact as [row Hrow]%fmap_Some_1. destruct Hrow as [Hrow _].
      rewrite Hrow in Hdb.
      eexists _, _. split; [done|]. rewrite current_status_status_of, Hdb.
      split.
      * rewrite status_of_update_eq by (by rewrite Hact). cbn.
        destruct Hr as [->|[-> ->]]; by rewrite He.
      * intros j Hj. by apply status_of_update_ne.
    + destruct (check_account_error account session e σ Hr He)
        as (σ' & -> & _ & Hcase).
      eexists _, _. split; [done|]. rewrite current_status_status_of.
      assert (session_verdict session = DISABLED) as Hv.
      { unfold session_verdict. destruct Hr as [->|[-> ->]]; by rewrite He. }
      unfold session_verdict in Hv. rewrite Hv.
      destruct (_ && _); destruct Hcase as [-> _].
      * split; [|intros j Hj; by apply status_of_update_ne].
        rewrite status_of_update_eq by (by rewrite Hact). done.
      * split; [|done]. rewrite Hact. done.
Qed.

Lemma sweep_observations_verdicts sessions accounts σ :
  NoDup (id <$> accounts) →
  (∀ a, In a accounts → status_of (id a) (db σ) = Some ACTIVE) →
  counted_as <$> sweep_observations accounts sessions σ
  = (λ a, session_verdict (sessions (id a))) <$> accounts.
Proof.
  revert σ. induction accounts as [|account rest IH]; intros σ Hnd Hact; [done|].
  apply NoDup_cons in Hnd as [Hhead Hnd].
  destruct (check_account_observation account (sessions (id account)) σ)
    as (b & σ1 & Hrun & Hobs & Hframe); [apply Hact; by left|].
  cbn [sweep_observations]. rewrite Hrun. cbn [fmap list_fmap].
  f_equal.
  - rewrite <- Hobs. unfold counted_as. cbn. by destruct b.
  - apply IH; [done|]. intros a Ha. rewrite Hframe; [apply Hact; by right|].
    intros Heq. apply Hhead. rewrite <- Heq.
    apply list_elem_of_fmap_2, list_elem_of_In, Ha.
Qed.

Lemma get_account_by_id_NoDup rows a :
  NoDup (id <$> rows) → In a rows → get_account_by_id (id a) rows = Some a.
Proof.
  unfold get_account_by_id.
  induction rows as [|r rows IH]; [done|]. intros [Hr Hnd]%NoDup_cons Hin.
  simpl. case_bool_decide as Hid.
  - destruct Hin as [->|Hin]; [done|]. exfalso. apply Hr. rewrite Hid.
    apply list_elem_of_fmap_2, list_elem_of_In, Hin.
  - destruct Hin as [->|Hin]; [done|]. by apply IH.
Qed.

Lemma get_active_accounts_NoDup rows :
  NoDup (id <$> rows) → NoDup (id <$> get_active_accounts rows).
Proof.
  unfold get_active_accounts.
  induction rows as [|r rows IH]; [done|]. intros [Hr Hnd]%NoDup_cons.
  simpl. destruct (bool_decide (status r = ACTIVE)); [|by apply IH].
  cbn. apply NoDup_cons. split; [|by apply IH].
  intros (a & Hid & Ha%list_elem_of_In%List.filter_In)%list_elem_of_fmap.
  apply Hr. rewrite Hid. apply list_elem_of_fmap_2, list_elem_of_In, Ha.
Qed.

Lemma length_filter_fmap {A B C : Type} (f : A → C) (g : B → C) (P : C → bool)
    (l : list A) (k : list B) :
  f <$> l = g <$> k →
  length (List.filter (λ x, P (f x)) l) = length (List.filter (λ y, P (g y)) k).
Proof.
  revert k. induction l as [|x l IH]; intros [|y k] Heq; try done.
  injection Heq as Hxy Heq. cbn. rewrite Hxy.
  destruct (P (g y)); cbn; by rewrite (IH k Heq).
Qed.

(** X15. With ids that are primary keys, the columns of the tally are read off
    the sessions: an account is under active when its probe succeeded, under
    blocked when its probe raised a block signal, under disabled for every
    other failure (also one that left its row active). *)
Lemma check_all_accounts_columns sessions σ :
  NoDup (id <$> db σ) →
  ∃ stats σ', check_all_accounts sessions σ = (Returns stats, σ')
    ∧ ∀ s, match s with
           | ACTIVE => active stats
           | DISABLED => disabled stats
           | BLOCKED => blocked stats
           end
           = length (List.filter
                       (λ a, bool_decide (session_verdict (sessions (id a)) = s))
                       (get_active_accounts (db σ))).
Proof.
  intros Hnd.
  destruct (check_each_tally sessions (get_active_accounts (db σ))
              (mkStats (length (get_active_accounts (db σ))) 0 0 0) σ)
    as (stats & σ1 & Hrun & _ & Ha & Hd & Hb).
  cbn in Ha, Hd, Hb.
  eexists stats, _. split; [by apply check_all_accounts_unfold|].
  assert (∀ s, tally s (sweep_observations (get_active_accounts (db σ)) sessions σ)
    = length (List.filter
                (λ a, bool_decide (session_verdict (sessions (id a)) = s))
                (get_active_accounts (db σ)))) as Htally.
  { intros s.
    assert (∀ a, In a (get_active_accounts (db σ)) →
                 status_of (id a) (db σ) = Some ACTIVE) as Hall.
    { unfold get_active_accounts.
      intros a [Ha' Hs]%List.filter_In. apply bool_decide_eq_true in Hs.
      unfold status_of. by rewrite (get_account_by_id_NoDup _ _ Hnd Ha'), <- Hs. }
    pose proof (sweep_observations_verdicts sessions
      (get_active_accounts (db σ)) σ (get_active_accounts_NoDup _ Hnd) Hall) as Hv.
    unfold tally. exact (length_filter_fmap _ _ (λ c, bool_decide (c = s)) _ _ Hv). }
  intros [| |]; rewrite <- Htally; done.
Qed.

(** ** Status never moves back to active *)

Lemma downward_refl rows : downward rows rows.
Proof. intros i. by left. Qed.

Lemma downward_trans rows1 rows2 rows3 :
  downward rows1 rows2 → downward rows2 rows3 → downward rows1 rows3.
Proof.
  intros H12 H23 i.
  destruct (H12 i) as [E|[Hs Hc]], (H23 i) as [E'|[Hs' Hc']].
  - left. congruence.
  - right. by rewrite <- E.
  - right. by rewrite E'.
  - by right.
Qed.

Lemma downward_update j s rows :
  s = DISABLED ∨ s = BLOCKED →
  downward rows (update_account_status_by_id j s rows).
Proof.
  intros Hs i. rewrite status_of_update.
  destruct (status_of i rows) eqn:E; cbn; [|by left].
  case_bool_decide; [right|by left].
  split; [done|]. destruct Hs as [-> | ->]; eauto.
Qed.

Lemma downward_increment_messages j rows :
  downward rows (increment_messages j rows).
Proof. intros i. left. apply status_of_increment_messages. Qed.

Lemma check_account_downward account session σ :
  downward (db σ) (db (check_account account session σ).2).
Proof.
  destruct (check_account_run account session σ)
    as (b & σ' & Hrun & _ & Hdb).
  rewrite Hrun. cbn. destruct Hdb as [->|(s & Hs & ->)].
  - apply downward_refl.
  - by apply downward_update.
Qed.

Lemma check_each_downward sessions accounts stats0 σ :
  downward (db σ) (db (check_each accounts sessions stats0 σ).2).
Proof.
  revert stats0 σ. induction accounts as [|account rest IH]; intros stats0 σ.
  - apply downward_refl.
  - cbn [check_each].
    pose proof (check_account_downward account (sessions (id account)) σ) as Hd.
    destruct (check_account_run account (sessions (id account)) σ)
      as (b & σ1 & Hrun & _).
    unfold mbind at 1, M_bind at 1. rewrite Hrun in Hd |- *.
    unfold mbind at 1, M_bind at 1, gets at 1.
    eapply downward_trans; [exact Hd|apply IH].
Qed.

Lemma check_all_accounts_downward sessions σ :
  downward (db σ) (db (check_all_accounts sessions σ).2).
Proof.
  unfold check_all_accounts.
  unfold mbind at 1, M_bind at 1, gets at 1.
  pose proof (check_each_downward sessions (get_active_accounts (db σ))
    (mkStats (length (get_active_accounts (db σ))) 0 0 0) σ) as Hd.
  destruct (check_each_tally sessions (get_active_accounts (db σ))
    (mkStats (length (get_active_accounts (db σ))) 0 0 0) σ)
    as (stats & σ1 & Hrun & _).
  unfold mbind at 1, M_bind at 1. rewrite Hrun in Hd |- *. exact Hd.
Qed.

(** ** The Orchestrator's send *)

(** The three ways a call of [send_message] can go. *)
Lemma send_message_run account username text session store_fault σ :
  ∃ b σ',
    send_message account username text session store_fault σ = (Returns b, σ')
    ∧ _error_counts σ' = _error_counts σ
    ∧ ((remote_send_succeeds account session σ ∧ store_fault = None ∧ b = true
        ∧ db σ' = increment_messages (id account) (db σ)
        ∧ log σ' = log σ ++ [IncrementMessages (id account); RecordMessage account])
       ∨ (remote_send_succeeds account session σ ∧ is_Some store_fault ∧ b = false
          ∧ db σ' = db σ
          ∧ log σ' = log σ ++ [IncrementMessages (id account)])
       ∨ (¬ remote_send_succeeds account session σ ∧ b = false
          ∧ db σ' = db σ ∧ log σ' = log σ)).
Proof.
  unfold remote_send_succeeds. exec_send.
  destruct (_active_clients σ !! id account) eqn:Hcl;
    [|destruct (connect session) as [[|]|e] eqn:Hcon]; cbn;
    destruct (can_send_message account) eqn:Hcan; cbn;
    try (destruct (client_send_message session) as [[|]|e'] eqn:Hs; cbn);
    try (destruct store_fault; cbn);
    eexists _, _; (split; [reflexivity|]); (split; [reflexivity|]); cbn;
    first
      [ right; right; split;
        [intros ([[? ?]|?] & ? & ?); congruence|repeat split; reflexivity]
      | left; rewrite <- app_assoc;
        repeat split; first [reflexivity | left; by eexists | by right]
      | right; left;
        repeat split; first [reflexivity | left; by eexists | by right | by eexists] ].
Qed.

Lemma new_events_app σ σ' evs :
  log σ' = log σ ++ evs → new_events σ σ' = evs.
Proof. intros E. unfold new_events. rewrite E. apply drop_app_length. Qed.

(** C2, as the code has it.  Every call of [send_message] returns.  When
    the remote send succeeds, [queries.increment_messages] is called exactly
    once; if that call completes, the row's counter is incremented,
    [safety.record_message] is called exactly once and the result is true; if
    it raises, [safety.record_message] is not called, the table is as before
    and the result is false.  When the remote send does not succeed (the
    client does not connect, the safety policy refuses, or the session's send
    returns false or raises), neither is called and the table is as
    before. *)
Theorem send_message_updates account username text session store_fault σ :
  ∃ b σ',
    send_message account username text session store_fault σ = (Returns b, σ')
    ∧ (remote_send_succeeds account session σ →
       increment_calls σ σ' = 1%nat
       ∧ match store_fault with
         | None => record_calls σ σ' = 1%nat ∧ b = true
                   ∧ db σ' = increment_messages (id account) (db σ)
         | Some _ => record_calls σ σ' = 0%nat ∧ b = false ∧ db σ' = db σ
         end)
    ∧ (¬ remote_send_succeeds account session σ →
       increment_calls σ σ' = 0%nat ∧ record_calls σ σ' = 0%nat
       ∧ b = false ∧ db σ' = db σ).
Proof.
  destruct (send_message_run account username text session store_fault σ)
    as (b & σ' & Hrun & _ & Hcases).
  exists b, σ'. split; [done|].
  unfold increment_calls, record_calls.
  destruct Hcases as [(Hok & -> & -> & Hdb & Hlog)
                     |[(Hok & [e ->] & -> & Hdb & Hlog)
                      |(Hno & -> & Hdb & Hlog)]].
  - rewrite (new_events_app _ _ _ Hlog). by split.
  - rewrite (new_events_app _ _ _ Hlog). by split.
  - rewrite <- (app_nil_r (log σ)) in Hlog.
    rewrite (new_events_app _ _ _ Hlog). by split.
Qed.

(** C5. Whatever the account, the cache, the answer of the safety policy
    and the behaviour of the session and of the store call (each may return
    or raise), [send_message] returns a boolean and raises nothing; the
    boolean is true only when the remote send succeeded and the store call
    completed, so every failure gives false. *)
Theorem send_message_total account username text session store_fault σ :
  ∃ b σ',
    send_message account username text session store_fault σ = (Returns b, σ')
    ∧ (b = true ↔ remote_send_succeeds account session σ ∧ store_fault = None).
Proof.
  destruct (send_message_run account username text session store_fault σ)
    as (b & σ' & Hrun & _ & Hcases).
  exists b, σ'. split; [done|].
  destruct Hcases as [(Hok & -> & -> & _)
                     |[(Hok & [e ->] & -> & _)|(Hno & -> & _)]].
  - done.
  - split; [done|]. by intros [_ ?].
  - split; [done|]. by intros [? _].
Qed.

Lemma get_available_account_run σ :
  (get_available_account σ).2 = σ.
Proof. done. Qed.

Lemma run_op_downward op σ : downward (db σ) (db (run_op op σ)).
Proof.
  destruct op as [account session|sessions| |account username text session fault];
    cbn [run_op].
  - apply check_account_downward.
  - apply check_all_accounts_downward.
  - rewrite get_available_account_run. apply downward_refl.
  - destruct (send_message_run account username text session fault σ)
      as (b & σ' & Hrun & _ & Hcases).
    rewrite Hrun. cbn.
    destruct Hcases as [(_ & _ & _ & -> & _)
                       |[(_ & _ & _ & -> & _)|(_ & _ & -> & _)]].
    + apply downward_increment_messages.
    + apply downward_refl.
    + apply downward_refl.
Qed.

(** Over every sequence of operations, whatever their environments do, no
    row appears or disappears, and a row whose status differs at the end is
    in status disabled or blocked. *)
Lemma run_ops_downward ops σ : downward (db σ) (db (run_ops ops σ)).
Proof.
  unfold run_ops. revert σ. induction ops as [|op ops IH]; intros σ.
  - apply downward_refl.
  - cbn [fold_left]. eapply downward_trans; [apply run_op_downward|apply IH].
Qed.

(** ** Enrollment *)

Lemma fresh_id_above rows a : In a rows → id a < fresh_id rows.
Proof.
  unfold fresh_id. induction rows as [|r rows IH]; [done|].
  intros [->|Hin]; cbn [fold_right]; [lia|]. specialize (IH Hin). lia.
Qed.

Lemma get_account_by_id_app_new rows a :
  (∀ r, In r rows → id r ≠ id a) →
  get_account_by_id (id a) (rows ++ [a]) = Some a.
Proof.
  unfold get_account_by_id. intros Hfresh.
  induction rows as [|r rows IH]; simpl.
  - by rewrite bool_decide_eq_true_2.
  - rewrite bool_decide_eq_false_2 by (apply Hfresh; by left).
    apply IH. intros r' Hr'. apply Hfresh. by right.
Qed.

(** C9. When [create_account] has made the row and then the session does
    not connect (it returns false or raises), or it connects and the request
    for the authorization code raises, [add_account] returns [None] and the
    table is the old one with the new row appended: the row is found under
    its id, and nothing undoes the insertion. *)
Theorem add_account_keeps_row p session σ :
  (connect session = Returns false
   ∨ (∃ e, connect session = Raises e)
   ∨ (connect session = Returns true ∧ ∃ e, send_code_request session = Raises e)) →
  ∃ σ', add_account p session (Returns true) σ = (Returns None, σ')
    ∧ db σ' = db σ ++ [new_account p (db σ)]
    ∧ get_account_by_id (id (new_account p (db σ))) (db σ')
      = Some (new_account p (db σ)).
Proof.
  intros Hfail.
  assert (get_account_by_id (id (new_account p (db σ)))
            (db σ ++ [new_account p (db σ)]) = Some (new_account p (db σ)))
    as Hfound.
  { apply get_account_by_id_app_new. intros r Hr%fresh_id_above.
    unfold new_account. cbn. lia. }
  unfold add_account, create_account.
  repeat (unfold try_except, await, gets, modify, raise,
            mbind, M_bind, mret, M_ret; cbn).
  destruct Hfail as [Hc|[[e Hc]|[Hc [e Hs]]]]; rewrite Hc; cbn;
    rewrite ?Hs; cbn; eexists; (split; [done|]); cbn; by split.
Qed.

(** ** Authorization *)

(** [self.queries] is not among the attributes of an [AccountManager]. *)
Lemma self_attribute_queries σ :
  ∃ e, self_attribute "queries" σ = (Raises e, σ) ∧ exc_class e = AttributeError.
Proof. eexists. split; [vm_compute; reflexivity|done]. Qed.

(** Whatever the phone, the code, the table and the session, the call returns
    false and changes nothing. *)
Lemma authorize_account_always_false p code session σ :
  authorize_account p code session σ = (Returns false, σ).
Proof.
  destruct (self_attribute_queries σ) as (e & Hq & _).
  unfold authorize_account, try_except. unfold mbind at 1, M_bind at 1.
  by rewrite Hq.
Qed.

(** C1. [is_available] is true exactly when the status is active and the
    daily message count is strictly below the configured cap; it is false as
    soon as the count reaches the cap; and it is a function of those two
    fields of the account alone (the embedding gives it no state to read or
    change). *)
Theorem is_available_iff (a : Account) :
  (is_available a = true ↔ status a = ACTIVE ∧ daily_messages a < MAX_DAILY_MESSAGES)
  ∧ (MAX_DAILY_MESSAGES ≤ daily_messages a → is_available a = false)
  ∧ (∀ b : Account,
       status b = status a → daily_messages b = daily_messages a →
       is_available b = is_available a).
Proof.
  unfold is_available. split; [split | split].
  - intros [Hs Hd]%andb_true_iff.
    apply bool_decide_eq_true in Hs. apply Z.ltb_lt in Hd. done.
  - intros [Hs Hd]. apply andb_true_iff. split.
    + by apply bool_decide_eq_true.
    + by apply Z.ltb_lt.
  - intros Hge. apply andb_false_iff. right. apply Z.ltb_ge. lia.
  - intros b -> ->. done.
Qed.

(** * Further properties of the account core *)

(** ** The consecutive-error counter *)

Lemma check_account_error_step account session σ :
  probe_errors session →
  let m := S (error_count (id account) σ) in
  ∃ σ', check_account account session σ = (Returns false, σ')
    ∧ if bool_decide (3 ≤ m)%nat
         && bool_decide (is_Some (status_of (id account) (db σ)))
      then db σ' = update_account_status_by_id (id account) DISABLED (db σ)
           ∧ error_count (id account) σ' = 0%nat
      else db σ' = db σ ∧ error_count (id account) σ' = m.
Proof.
  intros (e & Hr & He) m.
  destruct (check_account_error account session e σ Hr He)
    as (σ' & Hrun & _ & Hcase).
  exists σ'. split; [done|]. unfold error_count in *.
  replace (default 0 (_error_counts σ !! id account) + 1)%nat with m in Hcase
    by (unfold m, error_count; lia).
  destruct (_ && _); destruct Hcase as [Hdb ->]; (split; [done|]).
  - by rewrite lookup_delete_eq.
  - by rewrite lookup_insert_eq.
Qed.

Lemma check_repeatedly_cons account session sessions σ :
  check_repeatedly account (session :: sessions) σ
  = check_repeatedly account sessions (check_account account session σ).2.
Proof. done. Qed.

(** Below the threshold nothing but the counter moves. *)
Lemma check_repeatedly_below_threshold account sessions σ :
  Forall probe_errors sessions →
  (error_count (id account) σ + length sessions < 3)%nat →
  db (check_repeatedly account sessions σ) = db σ
  ∧ error_count (id account) (check_repeatedly account sessions σ)
    = (error_count (id account) σ + length sessions)%nat.
Proof.
  intros Herr. revert σ.
  induction Herr as [|session sessions Hs _ IH]; intros σ Hlt.
  - cbn. by rewrite Nat.add_0_r.
  - rewrite check_repeatedly_cons. cbn [length] in *.
    destruct (check_account_error_step account session σ Hs)
      as (σ1 & Hrun & Hcase).
    rewrite Hrun. cbn [snd].
    rewrite bool_decide_eq_false_2 in Hcase by lia.
    destruct Hcase as [Hdb Hcnt].
    destruct (IH σ1) as [-> ->]; [lia|]. split; [done|lia].
Qed.

(** X1. A success after fewer than three errors resets the counter and
    leaves the table as it was: with the count of the account and the number
    of erroring checks together below three, those checks followed by a
    successful one end with no counter for the account and an unchanged
    table. *)
Theorem check_repeatedly_success_resets account errors alive σ :
  Forall probe_errors errors → probe_alive alive →
  (error_count (id account) σ + length errors < 3)%nat →
  db (check_repeatedly account (errors ++ [alive]) σ) = db σ
  ∧ _error_counts (check_repeatedly account (errors ++ [alive]) σ) !! id account
    = None.
Proof.
  intros Herr Halive Hlt.
  unfold check_repeatedly. rewrite fold_left_app. cbn [fold_left].
  fold (check_repeatedly account errors σ).
  rewrite (check_account_alive _ _ _ Halive). cbn.
  destruct (check_repeatedly_below_threshold account errors σ Herr Hlt) as [-> _].
  split; [done|]. apply lookup_delete_eq.
Qed.

(** X2. For an account whose row is in the table, erroring checks are
    counted modulo three: after any number of consecutive erroring checks the
    counter holds the earlier count plus their number, modulo 3, and the row
    is disabled as soon as that sum has reached three (before that its status
    is the one it had). *)
Theorem check_repeatedly_errors account sessions σ :
  Forall probe_errors sessions →
  is_Some (status_of (id account) (db σ)) →
  (error_count (id account) σ < 3)%nat →
  let n := (error_count (id account) σ + length sessions)%nat in
  error_count (id account) (check_repeatedly account sessions σ) = (n mod 3)%nat
  ∧ status_of (id account) (db (check_repeatedly account sessions σ))
    = if (n <? 3)%nat then status_of (id account) (db σ) else Some DISABLED.
Proof.
  intros Herr. revert σ.
  induction Herr as [|session sessions Hs _ IH]; intros σ Hrow Hlt n.
  - unfold n, check_repeatedly. cbn [length fold_left].
    rewrite Nat.add_0_r, Nat.mod_small by done.
    by rewrite (proj2 (Nat.ltb_lt _ _) Hlt).
  - rewrite check_repeatedly_cons. unfold n. cbn [length].
    destruct (check_account_error_step account session σ Hs)
      as (σ1 & Hrun & Hcase).
    rewrite Hrun. cbn [snd].
    rewrite (bool_decide_eq_true_2 _ Hrow), andb_true_r in Hcase.
    case_bool_decide as Hthree; destruct Hcase as [Hdb Hcnt].
    + assert (error_count (id account) σ = 2)%nat as Htwo by lia.
      assert (status_of (id account) (db σ1) = Some DISABLED) as Hst
        by (rewrite Hdb; by apply status_of_update_eq).
      destruct (IH σ1) as [-> ->]; [by rewrite Hst|lia|].
      rewrite Hcnt, Htwo, Hst. cbn [Nat.add]. split.
      * replace (S (S (S (length sessions)))) with (length sessions + 1 * 3)%nat
          by lia.
        by rewrite Nat.Div0.mod_add.
      * by destruct (length sessions <? 3)%nat.
    + destruct (IH σ1) as [-> ->]; [by rewrite Hdb|lia|].
      rewrite Hcnt, Hdb.
      by replace (S (error_count (id account) σ) + length sessions)%nat
        with (error_count (id account) σ + S (length sessions))%nat by lia.
Qed.

(** X3. For an account that has no row in the table, erroring checks are
    counted without end: [_mark_account_disabled] pops the counter only
    inside [if account:], so the counter grows by one with every erroring
    check, also past three, and the table is not written. *)
Theorem check_repeatedly_missing_row account sessions σ :
  Forall probe_errors sessions →
  status_of (id account) (db σ) = None →
  db (check_repeatedly account sessions σ) = db σ
  ∧ error_count (id account) (check_repeatedly account sessions σ)
    = (error_count (id account) σ + length sessions)%nat.
Proof.
  intros Herr. revert σ.
  induction Herr as [|session sessions Hs _ IH]; intros σ Hrow.
  - cbn. by rewrite Nat.add_0_r.
  - rewrite check_repeatedly_cons. cbn [length].
    destruct (check_account_error_step account session σ Hs)
      as (σ1 & Hrun & Hcase).
    rewrite Hrun. cbn [snd].
    rewrite (bool_decide_eq_false_2 (is_Some _)), andb_false_r in Hcase
      by (rewrite Hrow; by intros [? ?]).
    destruct Hcase as [Hdb Hcnt].
    destruct (IH σ1) as [-> ->]; [by rewrite Hdb|]. split; [done|lia].
Qed.

(** ** What a check logs *)

(** The calls one check makes to the notifier and to the session's
    [disconnect], in order. *)
Lemma check_account_log account session σ :
  ∃ b σ' evs,
    check_account account session σ = (Returns b, σ')
    ∧ log σ' = log σ ++ evs ++ [Disconnect (id account)]
    ∧ (evs = []
       ∨ (∃ e, probe_raises session e ∧ is_block_signal e = true
               ∧ evs = [NotifyBlocked
                          (set_status BLOCKED
                             <$> get_account_by_id (id account) (db σ))
                          (exc_str e)])
       ∨ (∃ e row, probe_raises session e ∧ is_block_signal e = false
                   ∧ get_account_by_id (id account) (db σ) = Some row
                   ∧ (3 ≤ S (error_count (id account) σ))%nat
                   ∧ evs = [NotifyDisabled (set_status DISABLED row)
                              ("3 consecutive errors: " +:+ exc_str e)])).
Proof.
  destruct (session_cases session) as [Ha|[Hf|[e Hr]]].
  - rewrite (check_account_alive _ _ _ Ha). eexists _, _, []. by eauto.
  - rewrite (check_account_falsy _ _ _ Hf). eexists _, _, []. by eauto.
  - pose proof Hr as Hr'. unfold error_count.
    destruct (is_block_signal e) eqn:He.
    + destruct Hr as [Hc|[Hc Hg]]; exec; rewrite Hc; cbn; [|rewrite Hg; cbn];
        rewrite He; destruct (get_account_by_id (id account) (db σ)) eqn:Hrow;
        eexists _, _, [_]; (split; [reflexivity|]); cbn; rewrite <- app_assoc;
        (split; [reflexivity|]); right; left; exists e; by rewrite ?Hrow.
    + destruct Hr as [Hc|[Hc Hg]]; exec; rewrite Hc; cbn; [|rewrite Hg; cbn];
        rewrite He;
        (case_bool_decide as Hthree; cbn;
         [destruct (get_account_by_id (id account) (db σ)) as [row|] eqn:Hrow;
          cbn|]);
        try (eexists _, _, []; (split; [reflexivity|]); cbn; by eauto);
        eexists _, _, [_]; (split; [reflexivity|]); cbn; rewrite <- app_assoc;
        (split; [reflexivity|]); right; right; exists e, row;
        repeat split; try done; lia.
Qed.

(** X4. Whatever the session does, [check_account] closes it once, as the
    last thing it does: what a check appends to the log ends with the
    [disconnect] of the account's session, preceded by at most one call of
    the notifier and by no other [disconnect]. *)
Theorem check_account_disconnects_last account session σ :
  ∃ b σ' evs,
    check_account account session σ = (Returns b, σ')
    ∧ new_events σ σ' = evs ++ [Disconnect (id account)]
    ∧ (length evs ≤ 1)%nat
    ∧ List.filter is_disconnect evs = []
    ∧ List.filter is_status_report (new_events σ σ') = [].
Proof.
  destruct (check_account_log account session σ)
    as (b & σ' & evs & Hrun & Hlog & Hevs).
  exists b, σ', evs. split; [done|].
  rewrite (new_events_app _ _ _ Hlog), List.filter_app.
  destruct Hevs as [->|[(e & _ & _ & ->)|(e & row & _ & _ & _ & _ & ->)]];
    cbn; repeat split; lia.
Qed.

(** X5. A block signal is reported to the notifier once, before the
    session is closed.  The notifier is given the account's row as the store
    has it after the write, so with status blocked, and it is given no row
    at all when the table has none for the id: the notifier call is outside
    [if account:]. *)
Theorem check_account_block_signal_notifies account session e σ :
  probe_raises session e → is_block_signal e = true →
  ∃ σ', check_account account session σ = (Returns false, σ')
    ∧ new_events σ σ'
      = [NotifyBlocked (get_account_by_id (id account) (db σ')) (exc_str e);
         Disconnect (id account)]
    ∧ (∀ row, get_account_by_id (id account) (db σ') = Some row →
              status row = BLOCKED)
    ∧ (get_account_by_id (id account) (db σ) = None →
       get_account_by_id (id account) (db σ') = None).
Proof.
  intros Hr He.
  destruct (check_account_block_signal account session e σ Hr He)
    as (σ1 & Hrun1 & Hdb & _).
  destruct (check_account_log account session σ)
    as (b & σ' & evs & Hrun & Hlog & Hevs).
  rewrite Hrun1 in Hrun. injection Hrun as <- <-.
  assert (get_account_by_id (id account) (db σ1)
          = set_status BLOCKED <$> get_account_by_id (id account) (db σ))
    as Hread.
  { rewrite Hdb.
    destruct (get_account_by_id (id account) (db σ)) as [row|] eqn:Hrow.
    - unfold update_account_status_by_id.
      rewrite get_account_by_id_map by (intros a; by case_bool_decide).
      rewrite Hrow. cbn. apply get_account_by_id_Some in Hrow as [Hid _].
      by rewrite bool_decide_eq_true_2.
    - by rewrite Hrow. }
  exists σ1. split; [done|]. rewrite Hread, (new_events_app _ _ _ Hlog).
  assert (∀ e', probe_raises session e' → e' = e) as Hsame.
  { intros e' [Hc'|[Hc' Hg']]; destruct Hr as [Hc|[Hc Hg]]; congruence. }
  split; [|split].
  - destruct Hevs as [->|[(e' & Hr' & _ & ->)|(e' & row & Hr' & He' & _)]].
    + exfalso.
      destruct Hr as [Hc|[Hc Hg]]; exec; rewrite Hc in Hrun1; cbn in Hrun1;
        [|rewrite Hg in Hrun1; cbn in Hrun1]; rewrite He in Hrun1;
        destruct (get_account_by_id (id account) (db σ));
        injection Hrun1 as Hσ; apply (f_equal log) in Hσ; cbn in Hσ;
        rewrite Hlog, <- app_assoc in Hσ; apply app_inv_head in Hσ; done.
    + by rewrite (Hsame e' Hr').
    + rewrite (Hsame e' Hr') in He'. congruence.
  - intros row.
    destruct (get_account_by_id (id account) (db σ)); cbn; [|done].
    by intros [= <-].
  - by intros ->.
Qed.

(** ** What a check leaves alone *)

Lemma check_account_frame account session σ j :
  j ≠ id account →
  status_of j (db (check_account account session σ).2) = status_of j (db σ)
  ∧ _error_counts (check_account account session σ).2 !! j = _error_counts σ !! j.
Proof.
  intros Hj.
  destruct (session_cases session) as [Ha|[Hf|[e Hr]]].
  - rewrite (check_account_alive _ _ _ Ha). cbn. by rewrite lookup_delete_ne.
  - by rewrite (check_account_falsy _ _ _ Hf).
  - destruct (is_block_signal e) eqn:He.
    + destruct (check_account_block_signal account session e σ Hr He)
        as (σ' & -> & Hdb & Hcnt & _). cbn. rewrite Hdb, Hcnt.
      split; [|by apply lookup_delete_ne].
      destruct (get_account_by_id (id account) (db σ)); [|done].
      by apply status_of_update_ne.
    + destruct (check_account_error account session e σ Hr He)
        as (σ' & -> & _ & Hcase). cbn.
      destruct (_ && _); destruct Hcase as [-> ->].
      * split; [by apply status_of_update_ne|by apply lookup_delete_ne].
      * split; [done|by apply lookup_insert_ne].
Qed.

Lemma check_each_frame sessions accounts stats0 σ j :
  j ∉ id <$> accounts →
  status_of j (db (check_each accounts sessions stats0 σ).2) = status_of j (db σ)
  ∧ _error_counts (check_each accounts sessions stats0 σ).2 !! j
    = _error_counts σ !! j.
Proof.
  revert stats0 σ. induction accounts as [|account rest IH]; intros stats0 σ Hj.
  - done.
  - cbn [fmap list_fmap] in Hj.
    apply not_elem_of_cons in Hj as [Hne Hj].
    cbn [check_each].
    pose proof (check_account_frame account (sessions (id account)) σ j Hne)
      as [Hst Hcnt].
    destruct (check_account_run account (sessions (id account)) σ)
      as (b & σ1 & Hrun & _).
    unfold mbind at 1 3, M_bind at 1 3. rewrite Hrun in Hst, Hcnt |- *.
    unfold mbind at 1 2, M_bind at 1 2, gets at 1 2. cbn [snd] in Hst, Hcnt.
    rewrite <- Hst, <- Hcnt. by apply IH.
Qed.

(** X6. With ids that are primary keys, a sweep leaves every account that
    was not active when it began exactly as it was: its status is not
    written and its error counter is not touched, whatever the sessions
    do. *)
Theorem check_all_accounts_skips_inactive sessions σ i :
  NoDup (id <$> db σ) →
  status_of i (db σ) ≠ Some ACTIVE →
  status_of i (db (check_all_accounts sessions σ).2) = status_of i (db σ)
  ∧ _error_counts (check_all_accounts sessions σ).2 !! i = _error_counts σ !! i.
Proof.
  intros Hnd Hi.
  assert (i ∉ id <$> get_active_accounts (db σ)) as Hnot.
  { intros (a & -> & Ha%list_elem_of_In)%list_elem_of_fmap.
    unfold get_active_accounts in Ha.
    apply List.filter_In in Ha as [Hin Hs]. apply bool_decide_eq_true in Hs.
    apply Hi. unfold status_of.
    by rewrite (get_account_by_id_NoDup _ _ Hnd Hin), <- Hs. }
  pose proof (check_each_frame sessions (get_active_accounts (db σ))
    (mkStats (length (get_active_accounts (db σ))) 0 0 0) σ i Hnot) as Hframe.
  destruct (check_each_tally sessions (get_active_accounts (db σ))
    (mkStats (length (get_active_accounts (db σ))) 0 0 0) σ)
    as (stats & σ1 & Hrun & _).
  rewrite (check_all_accounts_unfold _ _ _ _ Hrun). rewrite Hrun in Hframe.
  exact Hframe.
Qed.

(** ** What a sweep logs *)

Lemma check_each_events sessions accounts stats0 σ :
  ∃ stats σ' evs,
    check_each accounts sessions stats0 σ = (Returns stats, σ')
    ∧ log σ' = log σ ++ evs
    ∧ length (List.filter is_disconnect evs) = length accounts
    ∧ List.filter is_status_report evs = [].
Proof.
  revert stats0 σ. induction accounts as [|account rest IH]; intros stats0 σ.
  - exists stats0, σ, []. by rewrite app_nil_r.
  - cbn [check_each].
    destruct (check_account_log account (sessions (id account)) σ)
      as (b & σ1 & evs1 & Hrun & Hlog1 & Hevs1).
    unfold mbind at 1, M_bind at 1. rewrite Hrun.
    unfold mbind at 1, M_bind at 1, gets at 1.
    match goal with |- context [check_each rest sessions ?st σ1] =>
      destruct (IH st σ1) as (stats & σ' & evs & -> & Hlog & Hd & Hr) end.
    exists stats, σ', ((evs1 ++ [Disconnect (id account)]) ++ evs).
    split; [done|]. rewrite Hlog, Hlog1, <- !app_assoc. split; [done|].
    rewrite !List.filter_app, !length_app, Hd, Hr.
    destruct Hevs1 as [->|[(e & _ & _ & ->)|(e & row & _ & _ & _ & _ & ->)]];
      cbn; split; (done || lia).
Qed.

(** X7. Every session a sweep opens is closed, and the sweep reports once:
    the log grows by the events of the checks, among them exactly [total]
    calls of [disconnect] and no status report, followed by one status
    report that carries the tally the sweep returns. *)
Theorem check_all_accounts_events sessions σ :
  ∃ stats σ' evs,
    check_all_accounts sessions σ = (Returns stats, σ')
    ∧ new_events σ σ' = evs ++ [NotifyStatusReport stats]
    ∧ length (List.filter is_disconnect evs) = total stats
    ∧ List.filter is_status_report evs = [].
Proof.
  destruct (check_each_events sessions (get_active_accounts (db σ))
    (mkStats (length (get_active_accounts (db σ))) 0 0 0) σ)
    as (stats & σ1 & evs & Heach & Hlog & Hd & Hr).
  destruct (check_each_tally sessions (get_active_accounts (db σ))
    (mkStats (length (get_active_accounts (db σ))) 0 0 0) σ)
    as (stats' & σ1' & Heach' & Htotal & _).
  rewrite Heach in Heach'. injection Heach' as <- <-. cbn in Htotal.
  eexists stats, _, evs. split; [by apply check_all_accounts_unfold|].
  split; [|by rewrite Hd, Htotal].
  apply new_events_app. cbn. by rewrite Hlog, <- app_assoc.
Qed.

(** ** The table under the operations of the core *)

Lemma row_kept_refl r : row_kept r r.
Proof. unfold row_kept. repeat split; auto. lia. Qed.

Lemma row_kept_trans r1 r2 r3 : row_kept r1 r2 → row_kept r2 r3 → row_kept r1 r3.
Proof.
  unfold row_kept. intros (?&?&?&H12&?) (?&?&?&H23&?).
  repeat split; try congruence; [|lia].
  destruct H23 as [->|H23]; [done|by right].
Qed.

Lemma rows_kept_refl rows : rows_kept rows rows.
Proof. induction rows; constructor; auto using row_kept_refl. Qed.

Lemma rows_kept_trans rows1 rows2 rows3 :
  rows_kept rows1 rows2 → rows_kept rows2 rows3 → rows_kept rows1 rows3.
Proof.
  intros H12. revert rows3.
  induction H12 as [|r1 r2 l1 l2 Hr _ IH]; intros rows3 H23;
    inversion H23 as [|? r3 ? l3 Hr23 Hl23]; subst; constructor.
  - by eapply row_kept_trans.
  - by apply IH.
Qed.

Lemma rows_kept_update j s rows :
  s = DISABLED ∨ s = BLOCKED →
  rows_kept rows (update_account_status_by_id j s rows).
Proof.
  intros Hs. unfold rows_kept, update_account_status_by_id.
  induction rows as [|r rows IH]; simpl; constructor; [|done].
  case_bool_decide; [|apply row_kept_refl].
  unfold row_kept. cbn. repeat split; [|lia]. right. tauto.
Qed.

Lemma rows_kept_increment_messages j rows :
  rows_kept rows (increment_messages j rows).
Proof.
  unfold rows_kept, increment_messages.
  induction rows as [|r rows IH]; simpl; constructor; [|done].
  case_bool_decide; [|apply row_kept_refl].
  unfold row_kept. cbn. repeat split; [by left|lia].
Qed.

Lemma check_each_rows_kept sessions accounts stats0 σ :
  rows_kept (db σ) (db (check_each accounts sessions stats0 σ).2).
Proof.
  revert stats0 σ. induction accounts as [|account rest IH]; intros stats0 σ.
  - apply rows_kept_refl.
  - cbn [check_each].
    destruct (check_account_run account (sessions (id account)) σ)
      as (b & σ1 & Hrun & _ & Hdb).
    unfold mbind at 1, M_bind at 1. rewrite Hrun.
    unfold mbind at 1, M_bind at 1, gets at 1.
    eapply rows_kept_trans; [|apply IH].
    destruct Hdb as [->|(s & Hs & ->)];
      [apply rows_kept_refl|by apply rows_kept_update].
Qed.

Lemma run_op_rows_kept op σ : rows_kept (db σ) (db (run_op op σ)).
Proof.
  destruct op as [account session|sessions| |account username text session fault];
    cbn [run_op].
  - destruct (check_account_run account session σ)
      as (b & σ1 & Hrun & _ & Hdb). rewrite Hrun. cbn.
    destruct Hdb as [->|(s & Hs & ->)];
      [apply rows_kept_refl|by apply rows_kept_update].
  - destruct (check_each_tally sessions (get_active_accounts (db σ))
      (mkStats (length (get_active_accounts (db σ))) 0 0 0) σ)
      as (stats & σ1 & Hrun & _).
    pose proof (check_each_rows_kept sessions (get_active_accounts (db σ))
      (mkStats (length (get_active_accounts (db σ))) 0 0 0) σ) as Hk.
    rewrite (check_all_accounts_unfold _ _ _ _ Hrun). by rewrite Hrun in Hk.
  - rewrite get_available_account_run. apply rows_kept_refl.
  - destruct (send_message_run account username text session fault σ)
      as (b & σ' & Hrun & _ & Hcases).
    rewrite Hrun. cbn.
    destruct Hcases as [(_ & _ & _ & -> & _)
                       |[(_ & _ & _ & -> & _)|(_ & _ & -> & _)]];
      [apply rows_kept_increment_messages|apply rows_kept_refl..].
Qed.

Lemma rows_kept_active rows rows' :
  rows_kept rows rows' →
  (length (get_active_accounts rows') ≤ length (get_active_accounts rows))%nat.
Proof.
  unfold get_active_accounts.
  induction 1 as [|r r' l l' (_&_&_&Hs&_) _ IH]; [done|]. simpl.
  destruct (status r') eqn:E'; rewrite ?bool_decide_eq_true_2 by done; simpl;
    destruct (bool_decide (status r = ACTIVE)) eqn:E; simpl; try lia;
    apply bool_decide_eq_false in E;
    destruct Hs as [Hs|[Hs|Hs]]; congruence.
Qed.

(** X8. Over every sequence of operations of the monitor and of the send
    path the table keeps its rows: the same number of rows in the same order,
    each with the id, phone and session credential it had, a status that is
    the old one or disabled or blocked, and a daily count that has not gone
    down; so the number of active accounts never grows. *)
Theorem core_keeps_rows ops σ :
  rows_kept (db σ) (db (run_ops ops σ))
  ∧ length (db (run_ops ops σ)) = length (db σ)
  ∧ (length (get_active_accounts (db (run_ops ops σ)))
     ≤ length (get_active_accounts (db σ)))%nat.
Proof.
  assert (rows_kept (db σ) (db (run_ops ops σ))) as Hk.
  { unfold run_ops. revert σ. induction ops as [|op ops IH]; intros σ.
    - apply rows_kept_refl.
    - cbn [fold_left]. eapply rows_kept_trans; [apply run_op_rows_kept|apply IH]. }
  split; [done|]. split; [|by apply rows_kept_active].
  symmetry. by eapply Forall2_length.
Qed.

(** ** Selection *)

Lemma find_first {A : Type} (f : A → bool) (l : list A) :
  match List.find f l with
  | Some a => ∃ l1 l2, l = l1 ++ a :: l2 ∧ f a = true
                       ∧ Forall (λ b, f b = false) l1
  | None => Forall (λ b, f b = false) l
  end.
Proof.
  induction l as [|x l IH]; simpl; [done|].
  destruct (f x) eqn:Hx.
  - exists [], l. by repeat split.
  - destruct (List.find f l) as [a|].
    + destruct IH as (l1 & l2 & -> & Ha & Hl1).
      exists (x :: l1), l2. repeat split; [done|by constructor].
    + by constructor.
Qed.

(** X9. [get_available_account] changes nothing and returns the first
    active account, in the order of the table, that is available and that the
    safety policy lets send; it returns [None] exactly when no active account
    passes both tests. *)
Theorem get_available_account_first σ :
  ∃ r, get_available_account σ = (Returns r, σ)
    ∧ match r with
      | Some a =>
          In a (db σ) ∧ status a = ACTIVE
          ∧ daily_messages a < MAX_DAILY_MESSAGES
          ∧ can_send_message a = true
          ∧ ∃ before after,
              get_active_accounts (db σ) = before ++ a :: after
              ∧ Forall (λ b, usable b = false) before
      | None => Forall (λ b, usable b = false) (get_active_accounts (db σ))
      end.
Proof.
  eexists. split; [reflexivity|].
  pose proof (find_first usable (get_active_accounts (db σ))) as Hfirst.
  fold usable.
  destruct (List.find usable (get_active_accounts (db σ))) as [a|]; [|done].
  destruct Hfirst as (l1 & l2 & Heq & Ha & Hl1).
  assert (In a (get_active_accounts (db σ))) as Hin
    by (rewrite Heq; apply in_elt).
  unfold get_active_accounts in Hin.
  apply List.filter_In in Hin as [Hin Hs]. apply bool_decide_eq_true in Hs.
  unfold usable in Ha. apply andb_true_iff in Ha as [Hav Hcan].
  unfold is_available in Hav. apply andb_true_iff in Hav as [_ Hlt].
  apply Z.ltb_lt in Hlt.
  repeat (split; [done|]). by exists l1, l2.
Qed.

(** ** The client cache and the stored counter *)

(** X10. [send_message] stores a client for the account exactly when none
    was cached and the new one connects, and then also when the safety
    policy refuses or the send fails afterwards; in every other case the
    cache is as it was.  No call removes a client. *)
Theorem send_message_cache account username text session store_fault σ :
  _active_clients (send_message account username text session store_fault σ).2
  = match _active_clients σ !! id account, connect session with
    | None, Returns true => <[id account := mkClient account]> (_active_clients σ)
    | _, _ => _active_clients σ
    end.
Proof.
  exec_send.
  destruct (_active_clients σ !! id account);
    [|destruct (connect session) as [[|]|e]]; cbn;
    destruct (can_send_message account); cbn;
    try (destruct (client_send_message session) as [[|]|e']; cbn);
    try (destruct store_fault; cbn); done.
Qed.

(** X11. A cached client is used without connecting again: with a client
    in the cache for the account, what [connect] would do has no influence
    on the result nor on the state. *)
Theorem send_message_reuses_client account username text session session'
    store_fault σ :
  is_Some (_active_clients σ !! id account) →
  client_send_message session' = client_send_message session →
  send_message account username text session' store_fault σ
  = send_message account username text session store_fault σ.
Proof.
  intros [client Hclient] Hsend. exec_send.
  by rewrite Hclient, Hsend.
Qed.

(** X12. The calls a send makes to the store and to the safety policy, in
    order.  [record_message] is called only after [increment_messages], each
    at most once and nothing else is called: the calls are a prefix of
    [increment_messages(account.id)], [record_message(account)].  A send that
    returns true has made both calls. *)
Theorem send_message_calls account username text session store_fault σ :
  ∃ b σ',
    send_message account username text session store_fault σ = (Returns b, σ')
    ∧ new_events σ σ'
      `prefix_of` [IncrementMessages (id account); RecordMessage account]
    ∧ (b = true →
       new_events σ σ' = [IncrementMessages (id account); RecordMessage account]).
Proof.
  destruct (send_message_run account username text session store_fault σ)
    as (b & σ' & Hrun & _ & Hcases).
  exists b, σ'. split; [done|].
  destruct Hcases as [(_ & _ & -> & _ & Hlog)
                     |[(_ & Hfault & -> & _ & Hlog)|(_ & -> & _ & Hlog)]].
  - rewrite (new_events_app _ _ _ Hlog). by split.
  - rewrite (new_events_app _ _ _ Hlog).
    split; [by exists [RecordMessage account]|done].
  - rewrite <- (app_nil_r (log σ)) in Hlog.
    rewrite (new_events_app _ _ _ Hlog). split; [apply prefix_nil|done].
Qed.

(** X13. The last message under the cap: when the stored row of the account
    is active with a daily count of [MAX_DAILY_MESSAGES - 1], it is
    available, and after a send that returns true the stored row is not. *)
Theorem send_message_reaches_cap account username text session store_fault
    σ σ' r :
  get_account_by_id (id account) (db σ) = Some r →
  status r = ACTIVE →
  daily_messages r = MAX_DAILY_MESSAGES - 1 →
  send_message account username text session store_fault σ = (Returns true, σ') →
  is_available r = true
  ∧ ∃ r', get_account_by_id (id account) (db σ') = Some r'
          ∧ is_available r' = false.
Proof.
  intros Hr Hs Hd Hrun.
  destruct (send_message_run account username text session store_fault σ)
    as (b & σ1 & Hrun1 & _ & Hcases).
  rewrite Hrun in Hrun1. injection Hrun1 as <- <-.
  destruct Hcases as [(_ & _ & _ & Hdb & _)
                     |[(_ & _ & ? & _)|(_ & ? & _)]]; [|done..].
  unfold is_available. split.
  - rewrite Hs, Hd, bool_decide_eq_true_2 by done. cbn. apply Z.ltb_lt. lia.
  - rewrite Hdb. unfold increment_messages.
    rewrite get_account_by_id_map; [|by intros a; case_bool_decide].
    rewrite Hr. cbn. apply get_account_by_id_Some in Hr as [Hid _].
    rewrite bool_decide_eq_true_2 by done.
    eexists. split; [done|]. cbn. rewrite Hd.
    apply andb_false_iff. right. apply Z.ltb_ge. lia.
Qed.

(** ** Enrollment, in full *)

(** X14. [add_account] returns an account exactly when the row was made,
    the session connected and the request for the code completed; the
    account is then the new row, appended to the table, and the request is
    the only call logged.  When no row was made (the store returned nothing
    or raised) the state is untouched. *)
Theorem add_account_result p session created σ :
  ∃ r σ', add_account p session created σ = (Returns r, σ')
    ∧ (is_Some r ↔ created = Returns true ∧ connect session = Returns true
                   ∧ send_code_request session = Returns tt)
    ∧ (∀ a, r = Some a →
         a = new_account p (db σ) ∧ db σ' = db σ ++ [a]
         ∧ new_events σ σ' = [SendCodeRequest p])
    ∧ (created ≠ Returns true → σ' = σ).
Proof.
  unfold add_account, create_account, new_events.
  repeat (unfold try_except, await, gets, modify, raise,
            mbind, M_bind, mret, M_ret; cbn).
  destruct created as [[|]|e]; cbn;
    [destruct (connect session) as [[|]|e]; cbn;
     [destruct (send_code_request session) as [[]|e]; cbn|..]|..];
    eexists _, _; (split; [reflexivity|]); cbn;
    (split; [split; [by intros [? ?]|by intros (? & ? & ?)]|]);
    rewrite ?drop_app_length; (split; [|done]); intros a Ha; by simplify_eq.
Qed.

(** ** The transitions of the status *)

Lemma rows_kept_ids rows rows' :
  rows_kept rows rows' → id <$> rows' = id <$> rows.
Proof.
  induction 1 as [|r r' l l' (Hid & _) _ IH]; [done|].
  cbn. by rewrite Hid, IH.
Qed.

Lemma check_all_accounts_inactive_frame sessions σ i :
  NoDup (id <$> db σ) →
  status_of i (db σ) ≠ Some ACTIVE →
  status_of i (db (check_all_accounts sessions σ).2) = status_of i (db σ).
Proof.
  intros Hnd Hi.
  assert (i ∉ id <$> get_active_accounts (db σ)) as Hnot.
  { intros (a & -> & Ha%list_elem_of_In)%list_elem_of_fmap.
    unfold get_active_accounts in Ha.
    apply List.filter_In in Ha as [Hin Hs]. apply bool_decide_eq_true in Hs.
    apply Hi. unfold status_of.
    by rewrite (get_account_by_id_NoDup _ _ Hnd Hin), <- Hs. }
  pose proof (check_each_frame sessions (get_active_accounts (db σ))
    (mkStats (length (get_active_accounts (db σ))) 0 0 0) σ i Hnot) as [Hframe _].
  destruct (check_each_tally sessions (get_active_accounts (db σ))
    (mkStats (length (get_active_accounts (db σ))) 0 0 0) σ)
    as (stats & σ1 & Hrun & _).
  rewrite (check_all_accounts_unfold _ _ _ _ Hrun). by rewrite Hrun in Hframe.
Qed.

Lemma run_op_inactive_frame op σ i :
  NoDup (id <$> db σ) →
  (if op is CheckAccount _ _ then False else True) →
  status_of i (db σ) ≠ Some ACTIVE →
  status_of i (db (run_op op σ)) = status_of i (db σ).
Proof.
  intros Hnd Hop Hi.
  destruct op as [account session|sessions| |account username text session fault];
    cbn [run_op]; [done| | |].
  - by apply check_all_accounts_inactive_frame.
  - by rewrite get_available_account_run.
  - destruct (send_message_run account username text session fault σ)
      as (b & σ' & Hrun & _ & Hcases).
    rewrite Hrun. cbn.
    destruct Hcases as [(_ & _ & _ & -> & _)
                       |[(_ & _ & _ & -> & _)|(_ & _ & -> & _)]];
      [apply status_of_increment_messages|done..].
Qed.

Lemma run_ops_inactive_frame ops σ i :
  NoDup (id <$> db σ) → through_sweeps ops →
  status_of i (db σ) ≠ Some ACTIVE →
  status_of i (db (run_ops ops σ)) = status_of i (db σ).
Proof.
  unfold run_ops, through_sweeps. intros Hnd Hops. revert σ Hnd.
  induction Hops as [|op ops Hop _ IH]; intros σ Hnd Hi; [done|].
  cbn [fold_left].
  pose proof (run_op_inactive_frame op σ i Hnd Hop Hi) as Hstep.
  rewrite IH; [done| |by rewrite Hstep].
  by rewrite (rows_kept_ids _ _ (run_op_rows_kept op σ)).
Qed.

(** C8, as the code has it.  Over every sequence of operations of the
    Health Monitor and of the Orchestrator's send path, whatever their
    environments do, no status is set to active (a row that is active at the
    end was active at the start), no row appears or disappears, and a row
    whose status differs at the end is in status disabled or blocked.  When
    accounts are checked by sweeps only, and ids are primary keys, every such
    change starts from active: the transitions are active to disabled and
    active to blocked.  ([check_account] called on an account that is not
    active writes disabled or blocked all the same.) *)
Theorem core_status_transitions ops σ :
  (∀ i, status_of i (db (run_ops ops σ)) = Some ACTIVE →
        status_of i (db σ) = Some ACTIVE)
  ∧ (∀ i, status_of i (db (run_ops ops σ)) ≠ status_of i (db σ) →
          is_Some (status_of i (db σ))
          ∧ (status_of i (db (run_ops ops σ)) = Some DISABLED
             ∨ status_of i (db (run_ops ops σ)) = Some BLOCKED))
  ∧ (NoDup (id <$> db σ) → through_sweeps ops →
     ∀ i, status_of i (db (run_ops ops σ)) ≠ status_of i (db σ) →
          status_of i (db σ) = Some ACTIVE).
Proof.
  pose proof (run_ops_downward ops σ) as Hd.
  split; [|split].
  - intros i Hact. destruct (Hd i) as [E|[_ [E|E]]]; congruence.
  - intros i Hne. destruct (Hd i) as [E|[Hsome Hend]]; [done|by split].
  - intros Hnd Hops i Hne.
    destruct (decide (status_of i (db σ) = Some ACTIVE)) as [|Hi]; [done|].
    by rewrite (run_ops_inactive_frame ops σ i Hnd Hops Hi) in Hne.
Qed.

End Core.

(** * Scenarios *)

Import Sample.

Lemma check_account_falsy_frame_offline :
  probe_falsy offline
  ∧ ∃ σ', check_account alice offline start = (Returns false, σ')
      ∧ _error_counts σ' = _error_counts start
      ∧ db σ' = db start.
Proof.
  assert (probe_falsy offline) as H by (left; reflexivity).
  split; [exact H|]. exact (check_account_falsy_frame alice offline start H).
Defined.

Lemma check_account_block_signal_blocks_banned :
  ∃ σ', check_account alice banned start = (Returns false, σ')
    ∧ (is_Some (status_of (id alice) (db start)) →
       status_of (id alice) (db σ') = Some BLOCKED)
    ∧ _error_counts σ' !! id alice = None
    ∧ (∀ j, j ≠ id alice →
         status_of j (db σ') = status_of j (db start)
         ∧ _error_counts σ' !! j = _error_counts start !! j).
Proof.
  apply (check_account_block_signal_blocks alice banned revoked start).
  - right. split; reflexivity.
  - vm_compute. apply list_elem_of_further, list_elem_of_here.
Defined.

Lemma check_account_three_errors_disable_flaky :
  ∃ σ1 σ2 σ3,
    check_account alice flaky start = (Returns false, σ1)
    ∧ check_account alice flaky σ1 = (Returns false, σ2)
    ∧ check_account alice flaky σ2 = (Returns false, σ3)
    ∧ (db σ1 = db start ∧ _error_counts σ1 !! id alice = Some 1%nat)
    ∧ (db σ2 = db start ∧ _error_counts σ2 !! id alice = Some 2%nat)
    ∧ status_of (id alice) (db σ3) = Some DISABLED
    ∧ _error_counts σ3 !! id alice = None.
Proof.
  apply (check_account_three_errors_disable alice flaky flaky flaky
           flood flood flood start);
    first [reflexivity | right; split; reflexivity].
Defined.

Lemma add_account_keeps_row_no_code :
  ∃ σ', add_account "+15550003" no_code (Returns true) start = (Returns None, σ')
    ∧ db σ' = db start ++ [new_account "+15550003" (db start)]
    ∧ get_account_by_id (id (new_account "+15550003" (db start))) (db σ')
      = Some (new_account "+15550003" (db start)).
Proof.
  apply (add_account_keeps_row "+15550003" no_code start).
  right. right. split; [reflexivity|]. exists flood. reflexivity.
Defined.

(** C2, the case that the statement "exactly once when the remote send
    succeeds" misses: the remote send succeeds and the store call raises.
    [send_message] catches the exception and returns false;
    [safety.record_message] has not been called and the counter in the table
    is unchanged. *)
Lemma send_message_store_fault_skips_record :
  remote_send_succeeds permissive alice online start
  ∧ ∃ σ', send_message permissive alice "lead" "hello" online (Some store_down) start
          = (Returns false, σ')
      ∧ record_calls start σ' = 0%nat
      ∧ record_calls start σ' ≠ 1%nat
      ∧ db σ' = db start.
Proof.
  split.
  - split; [right; reflexivity|split; reflexivity].
  - eexists. split; [vm_compute; reflexivity|]. vm_compute. repeat split. lia.
Defined.

(** C7, at an input on which the design expects true: the account exists
    without a credential, the session connects and the code is exchanged for
    a session string.  [authorize_account] returns false and the table still
    has no credential for the account. *)
Theorem authorize_account_valid_code_fails :
  get_account_by_phone "+15550001" (db start) = Some alice
  ∧ connect online = Returns true
  ∧ authorize online = Returns (Some "1BVtsOK4Bu")
  ∧ authorize_account "+15550001" "12345" online start = (Returns false, start)
  ∧ session_string <$> get_account_by_phone "+15550001" (db start) = Some None.
Proof.
  do 3 (split; [reflexivity|]).
  split; [apply authorize_account_always_false|reflexivity].
Qed.

(** The scenario of the design document: a block signal on the first check;
    the sweep reports blocked = 1 and active = 0 for that account. *)
Example check_all_accounts_reports_blocked :
  (check_all_accounts (λ i, if bool_decide (i = 1) then banned else online) start).1
  = Returns (mkStats 2 1 0 1).
Proof. vm_compute. reflexivity. Qed.

(** An account that failed once with an ordinary error is still active in the
    table, and the sweep counts it under disabled. *)
Example check_all_accounts_counts_error_as_disabled :
  let r := check_all_accounts (λ i, if bool_decide (i = 1) then flaky else online) start in
  r.1 = Returns (mkStats 2 1 1 0) ∧ status_of 1 (db r.2) = Some ACTIVE.
Proof. vm_compute. split; reflexivity. Qed.

(** The administrative override is the operation that can write active. *)
Example update_account_status_reactivates :
  let blocked_world := (check_account alice banned start).2 in
  status_of 1 (db blocked_world) = Some BLOCKED
  ∧ status_of 1 (db (update_account_status "+15550001" ACTIVE None blocked_world).2)
    = Some ACTIVE.
Proof. vm_compute. split; reflexivity. Qed.

(** The scenario of the design document: with one message left under the cap
    the account is available, and it is not once a send has been counted. *)
Example is_available_at_the_cap :
  is_available 50 bob = true
  ∧ ∃ σ', send_message permissive bob "lead" "hello" online None start = (Returns true, σ')
      ∧ (is_available 50 <$> get_account_by_id 2 (db σ')) = Some false.
Proof. split; [reflexivity|]. eexists. split; vm_compute; reflexivity. Qed.

(** * The last client message (core/ai/sales/manager.py) *)

Import Sales.

Lemma first_in_passed_over skipped rest :
  Forall passed_over skipped → first_in (skipped ++ rest) = first_in rest.
Proof.
  induction 1 as [|msg skipped (direction & Hd & Hne) _ IH]; [done|].
  cbn. rewrite Hd. by rewrite bool_decide_eq_false_2.
Qed.

Lemma last_message_split earlier msg later :
  Forall passed_over later →
  last_message (earlier ++ msg :: later) = first_in (msg :: rev earlier).
Proof.
  intros Hlater. unfold last_message.
  rewrite rev_app_distr. cbn [rev]. rewrite <- !app_assoc.
  rewrite first_in_passed_over by (by apply List.Forall_rev). done.
Qed.

(** X16. The last client message is the text of the last message of the
    history whose direction is ["in"], whatever comes before it: the scan
    runs from the end and stops there, so an earlier message that lacks a
    key is never read. *)
Theorem last_message_last_in earlier msg later body :
  msg !! "direction" = Some "in" → msg !! "text" = Some body →
  Forall passed_over later →
  last_message (earlier ++ msg :: later) = Found body.
Proof.
  intros Hd Ht Hlater. rewrite last_message_split by done.
  cbn. by rewrite Hd, Ht.
Qed.

(** X17. With no message of direction ["in"] in a history whose messages
    all have a direction, the last client message is the empty string, and
    nothing is raised. *)
Theorem last_message_default history :
  Forall passed_over history → last_message history = Found EmptyString.
Proof.
  intros Hall. unfold last_message.
  rewrite <- (app_nil_r (rev history)).
  by rewrite first_in_passed_over by (by apply List.Forall_rev).
Qed.

Lemma first_in_cases reversed :
  match first_in reversed with
  | Found body =>
      (body = EmptyString ∧ Forall passed_over reversed)
      ∨ ∃ skipped msg rest,
          reversed = skipped ++ msg :: rest ∧ Forall passed_over skipped
          ∧ msg !! "direction" = Some "in" ∧ msg !! "text" = Some body
  | KeyError key =>
      ∃ skipped msg rest,
        reversed = skipped ++ msg :: rest ∧ Forall passed_over skipped
        ∧ ((key = "direction" ∧ msg !! "direction" = None)
           ∨ (key = "text" ∧ msg !! "direction" = Some "in"
              ∧ msg !! "text" = None))
  end.
Proof.
  induction reversed as [|msg rest IH]; cbn; [by left|].
  destruct (msg !! "direction") as [direction|] eqn:Hd.
  - case_bool_decide as Hin.
    + subst direction. destruct (msg !! "text") as [body|] eqn:Ht.
      * right. by exists [], msg, rest.
      * exists [], msg, rest. repeat split; [done|]. by right.
    + assert (passed_over msg) as Hmsg by (by exists direction).
      destruct (first_in rest) as [body|key].
      * destruct IH as [[-> Hall]|(skipped & m & r & -> & Hs & Hm)].
        -- left. split; [done|by constructor].
        -- right. exists (msg :: skipped), m, r. repeat split; try done;
             [by constructor|apply Hm|apply Hm].
      * destruct IH as (skipped & m & r & -> & Hs & Hm).
        exists (msg :: skipped), m, r. repeat split; [by constructor|done].
  - exists [], msg, rest. repeat split; [done|]. by left.
Qed.

(** X18. Reading the last client message raises [KeyError] exactly when the
    scan from the end, after messages that have a direction other than
    ["in"], meets a message without ["direction"] (the key of the error), or
    a message of direction ["in"] without ["text"]. *)
Theorem last_message_raises history key :
  last_message history = KeyError key
  ↔ ∃ earlier msg later,
      history = earlier ++ msg :: later ∧ Forall passed_over later
      ∧ ((key = "direction" ∧ msg !! "direction" = None)
         ∨ (key = "text" ∧ msg !! "direction" = Some "in"
            ∧ msg !! "text" = None)).
Proof.
  split.
  - unfold last_message. intros Hkey.
    pose proof (first_in_cases (rev history)) as Hcases.
    rewrite Hkey in Hcases.
    destruct Hcases as (skipped & msg & rest & Hrev & Hs & Hm).
    exists (rev rest), msg, (rev skipped). split; [|split; [|done]].
    + rewrite <- (rev_involutive history), Hrev, rev_app_distr. cbn [rev].
      by rewrite <- app_assoc.
    + by apply List.Forall_rev.
  - intros (earlier & msg & later & -> & Hlater & Hm).
    rewrite last_message_split by done. cbn.
    destruct Hm as [[-> Hd]|(-> & Hd & Ht)]; by rewrite Hd, ?Ht.
Qed.

(** * Scenarios of the further properties *)

Import Fixture.

Lemma flaky_errors : probe_errors flaky.
Proof. exists flood. split; [right; split; reflexivity|reflexivity]. Qed.

Lemma check_repeatedly_success_resets_two_errors :
  db (check_repeatedly alice ([flaky; flaky] ++ [online]) start) = db start
  ∧ _error_counts (check_repeatedly alice ([flaky; flaky] ++ [online]) start)
      !! id alice = None.
Proof.
  apply (check_repeatedly_success_resets alice [flaky; flaky] online start).
  - repeat constructor; apply flaky_errors.
  - split; reflexivity.
  - vm_compute. lia.
Defined.

Lemma check_repeatedly_errors_seven :
  error_count (id alice)
    (check_repeatedly alice [flaky; flaky; flaky; flaky; flaky; flaky; flaky] start)
  = ((error_count (id alice) start + 7) mod 3)%nat
  ∧ status_of (id alice)
      (db (check_repeatedly alice
             [flaky; flaky; flaky; flaky; flaky; flaky; flaky] start))
    = if (error_count (id alice) start + 7 <? 3)%nat
      then status_of (id alice) (db start) else Some DISABLED.
Proof.
  apply (check_repeatedly_errors alice
           [flaky; flaky; flaky; flaky; flaky; flaky; flaky] start).
  - repeat constructor; apply flaky_errors.
  - eexists. reflexivity.
  - vm_compute. lia.
Defined.

Lemma check_repeatedly_missing_row_ghost :
  db (check_repeatedly ghost [flaky; flaky; flaky; flaky] start) = db start
  ∧ error_count (id ghost) (check_repeatedly ghost [flaky; flaky; flaky; flaky] start)
    = (error_count (id ghost) start + 4)%nat.
Proof.
  apply (check_repeatedly_missing_row ghost [flaky; flaky; flaky; flaky] start).
  - repeat constructor; apply flaky_errors.
  - reflexivity.
Defined.

Lemma check_account_block_signal_notifies_alice :
  ∃ σ', check_account alice banned start = (Returns false, σ')
    ∧ new_events start σ'
      = [NotifyBlocked (get_account_by_id (id alice) (db σ')) (exc_str revoked);
         Disconnect (id alice)]
    ∧ (∀ row, get_account_by_id (id alice) (db σ') = Some row →
              status row = BLOCKED)
    ∧ (get_account_by_id (id alice) (db start) = None →
       get_account_by_id (id alice) (db σ') = None).
Proof.
  apply (check_account_block_signal_notifies alice banned revoked start).
  - right. split; reflexivity.
  - reflexivity.
Defined.

Lemma NoDup_mixed : NoDup (id <$> db mixed).
Proof. apply (bool_decide_unpack _). vm_compute. exact I. Qed.

Lemma check_all_accounts_skips_inactive_carol :
  status_of 3 (db (check_all_accounts (λ _, flaky) mixed).2) = status_of 3 (db mixed)
  ∧ _error_counts (check_all_accounts (λ _, flaky) mixed).2 !! 3
    = _error_counts mixed !! 3.
Proof.
  apply (check_all_accounts_skips_inactive (λ _, flaky) mixed 3).
  - apply NoDup_mixed.
  - vm_compute. discriminate.
Defined.

Lemma check_all_accounts_columns_mixed :
  ∃ stats σ', check_all_accounts (λ i, if bool_decide (i = 1) then banned else flaky) mixed
              = (Returns stats, σ')
    ∧ ∀ s, match s with
           | ACTIVE => active stats
           | DISABLED => disabled stats
           | BLOCKED => blocked stats
           end
           = length (List.filter
                       (λ a, bool_decide
                               (session_verdict
                                  ((λ i, if bool_decide (i = 1) then banned else flaky)
                                     (id a)) = s))
                       (get_active_accounts (db mixed))).
Proof.
  apply (check_all_accounts_columns
           (λ i, if bool_decide (i = 1) then banned else flaky) mixed).
  apply NoDup_mixed.
Defined.

Lemma send_message_reuses_client_warm :
  send_message permissive alice "lead" "hello" unreachable None warm
  = send_message permissive alice "lead" "hello" online None warm.
Proof.
  apply (send_message_reuses_client permissive alice "lead" "hello"
           online unreachable None warm).
  - eexists. reflexivity.
  - reflexivity.
Defined.

Lemma send_message_reaches_cap_bob :
  is_available 50 bob = true
  ∧ ∃ r', get_account_by_id (id bob)
            (db (send_message permissive bob "lead" "hello" online None start).2)
          = Some r'
          ∧ is_available 50 r' = false.
Proof.
  apply (send_message_reaches_cap 50 permissive bob "lead" "hello" online None
           start _ bob); vm_compute; reflexivity.
Defined.

Lemma last_message_last_in_after_malformed :
  last_message ([∅] ++ {[ "direction" := "in"; "text" := "Сколько стоит?" ]}
                  :: [{[ "direction" := "out"; "text" := "Добрый день" ]}])
  = Found "Сколько стоит?".
Proof.
  apply (last_message_last_in [∅]
           {[ "direction" := "in"; "text" := "Сколько стоит?" ]}
           [{[ "direction" := "out"; "text" := "Добрый день" ]}]).
  - vm_compute. reflexivity.
  - vm_compute. reflexivity.
  - repeat constructor. exists "out". split; [vm_compute; reflexivity|discriminate].
Defined.

Lemma last_message_default_only_bot :
  last_message [{[ "direction" := "out"; "text" := "Добрый день" ]}]
  = Found EmptyString.
Proof.
  apply (last_message_default [{[ "direction" := "out"; "text" := "Добрый день" ]}]).
  repeat constructor. exists "out". split; [vm_compute; reflexivity|discriminate].
Defined.

(** * The test-dialog handlers (api/handlers/testing.py) *)

Import Testing.

Ltac exec_bot :=
  repeat (unfold handle_error, cleanup_dialog, reply,
            send_completion_message, forward_messages_to_topic,
            create_thread_message, create_forum_topic,
            text_startswith_slash,
            try_except, await, gets, modify,
            mbind, H_bind, mret, H_ret in *; cbn in *).

(** ** Tags *)

(** X19. Every status leads to a tag that [TAG_DESCRIPTIONS] describes, so
    the default description is never used; distinct statuses give distinct
    tags; and the default tag ["#тест"] is the tag of [stopped], the one
    status [STATUS_TO_TAG] has no entry for, and of no other. *)
Theorem result_tag_described status :
  TAG_DESCRIPTIONS !! result_tag status = Some (tag_description (result_tag status))
  ∧ tag_description (result_tag status) ≠ EmptyString
  ∧ (STATUS_TO_TAG !! value status = None ↔ status = stopped)
  ∧ (result_tag status = "#тест" ↔ status = stopped)
  ∧ ∀ status', result_tag status' = result_tag status → status' = status.
Proof.
  split; [by destruct status; vm_compute|].
  split; [by destruct status; vm_compute|].
  split; [destruct status; vm_compute; split; congruence|].
  split; [destruct status; vm_compute; split; congruence|].
  intros status'. destruct status, status'; vm_compute; congruence.
Qed.

(** ** Running the pieces *)

Lemma H_bind_returns {A B : Type} (m : H A) (f : A → H B) β a β' :
  m β = (Returns a, β') → (m ≫= f) β = f a β'.
Proof. intros E. unfold mbind, H_bind. by rewrite E. Qed.

Lemma H_bind_raises {A B : Type} (m : H A) (f : A → H B) β e β' :
  m β = (Raises e, β') → (m ≫= f) β = (Raises e, β').
Proof. intros E. unfold mbind, H_bind. by rewrite E. Qed.

Lemma send_all conductor messages β :
  let β' := List.fold_left (λ β m, send_func conductor m β) messages β in
  test_dialogs β' = test_dialogs β
  ∧ group_posts β' = group_posts β
  ∧ dialog_messages β'
    = alter (λ stored, stored ++ messages) (from_user_id (origin conductor))
        (dialog_messages β).
Proof.
  revert β. induction messages as [|m messages IH]; intros β; cbn.
  - repeat split. symmetry. apply alter_id. intros stored _. apply app_nil_r.
  - destruct (IH (send_func conductor m β)) as (-> & -> & ->). cbn.
    repeat split. rewrite alter_alter_eq. apply alter_ext.
    intros stored _. cbn. by rewrite <- app_assoc.
Qed.

Lemma call_conductor_run {A : Type} conductor (run : Run A) β :
  ∃ β', call_conductor conductor run β = (result run, β')
    ∧ test_dialogs β' = test_dialogs β
    ∧ group_posts β' = group_posts β
    ∧ dialog_messages β'
      = alter (λ stored, stored ++ sent run) (from_user_id (origin conductor))
          (dialog_messages β).
Proof.
  eexists. split.
  - unfold call_conductor. exec_bot. reflexivity.
  - cbn. apply send_all.
Qed.

(** ** Forwarding a dialog *)

Lemma thread_link_nonempty group_id topic_id thread_msg_id :
  thread_link group_id topic_id thread_msg_id ≠ EmptyString.
Proof. unfold thread_link. cbn. discriminate. Qed.

(** A step before the forwarding call did not go through. *)
Ltac not_forwarded :=
  eexists _, _; (split; [reflexivity|]); do 3 (split; [reflexivity|]);
  (split;
   [intros ? ? ? ? ? (? & ? & [? ?] & ? & ? & [? ?] & ? & ? & ? & ?);
    exfalso; congruence
   |intros _; split; reflexivity]).

(** X20. [forward_dialog_for_analysis] raises nothing and leaves the two
    dicts and the replies alone.  When every step before the forwarding call
    goes through ([forwarded]), it returns the thread link, which is not
    empty, and has posted the one thread message; when some step does not, it
    returns the empty string and posts nothing.  The outcome of the
    forwarding call itself has no part in either case. *)
Theorem forward_dialog_for_analysis_link client user_id status β :
  ∃ link β',
    forward_dialog_for_analysis client user_id status β = (Returns link, β')
    ∧ test_dialogs β' = test_dialogs β
    ∧ dialog_messages β' = dialog_messages β
    ∧ replies β' = replies β
    ∧ (∀ messages current group_id topic_id thread_msg_id,
         forwarded client user_id status β messages current
           group_id topic_id thread_msg_id →
         link = thread_link group_id topic_id thread_msg_id
         ∧ link ≠ EmptyString
         ∧ group_posts β'
           = group_posts β
             ++ [(group_id, topic_id, thread_message_text messages current)])
    ∧ ((∀ messages current group_id topic_id thread_msg_id,
          ¬ forwarded client user_id status β messages current
              group_id topic_id thread_msg_id) →
       link = EmptyString ∧ group_posts β' = group_posts β).
Proof.
  unfold forward_dialog_for_analysis. exec_bot.
  destruct (dialog_messages β !! user_id) as [messages|] eqn:Hdm; cbn;
    [|not_forwarded].
  destruct (test_dialogs β !! user_id) as [conductor|] eqn:Htd; cbn;
    [|not_forwarded].
  case_bool_decide as Hmessages; cbn; [not_forwarded|].
  destruct (get_chat client) as [[group_id|]|e] eqn:Hchat; cbn;
    [|not_forwarded..].
  case_bool_decide as Hgroup; cbn; [not_forwarded|].
  destruct (resolve_peer client) as [peer|e] eqn:Hpeer; cbn; [|not_forwarded].
  destruct (create_topic client) as [topic_id|e] eqn:Htopic; cbn;
    [|not_forwarded].
  case_bool_decide as Hzero; cbn; [not_forwarded|].
  rewrite ?bool_decide_eq_false_2 by done; cbn.
  destruct status as [current|e] eqn:Hstatus; cbn; [|not_forwarded].
  destruct (send_message client) as [thread_msg_id|e] eqn:Hsend; cbn;
    [|not_forwarded].
  assert (forwarded client user_id (Returns current) β messages current
            group_id topic_id thread_msg_id) as Hforwarded.
  { unfold forwarded. rewrite Hdm, Htd, Hchat, Hpeer, Htopic, Hsend.
    repeat split; eauto. }
  destruct (forward_messages client) as [[]|e]; cbn;
    eexists _, _; (split; [reflexivity|]); do 3 (split; [reflexivity|]);
    (split;
     [intros ? ? ? ? ? (Hm & _ & _ & Hg & _ & _ & Ht & _ & [= <-] & Hs);
      assert (Some messages0 = Some messages) as [= ->] by congruence;
      assert (Returns (Some group_id0) = Returns (Some group_id)) as [= ->]
        by congruence;
      assert (Returns topic_id0 = Returns topic_id) as [= ->] by congruence;
      assert (Returns thread_msg_id0 = Returns thread_msg_id) as [= ->]
        by congruence;
      split; [reflexivity|]; split; [apply thread_link_nonempty|reflexivity]
     |intros Hno; exfalso; eapply Hno; apply Hforwarded]).
Qed.

(** ** The handlers *)

Lemma forward_dialog_for_analysis_frame client user_id status β :
  ∃ link β',
    forward_dialog_for_analysis client user_id status β = (Returns link, β')
    ∧ test_dialogs β' = test_dialogs β
    ∧ dialog_messages β' = dialog_messages β
    ∧ replies β' = replies β.
Proof.
  unfold forward_dialog_for_analysis. exec_bot.
  destruct (dialog_messages β !! user_id) as [messages|]; cbn;
    [|by eexists _, _].
  destruct (test_dialogs β !! user_id) as [conductor|]; cbn; [|by eexists _, _].
  case_bool_decide; cbn; [by eexists _, _|].
  destruct (get_chat client) as [[group_id|]|e]; cbn; [|by eexists _, _..].
  case_bool_decide; cbn; [by eexists _, _|].
  destruct (resolve_peer client) as [peer|e]; cbn; [|by eexists _, _].
  destruct (create_topic client) as [topic_id|e]; cbn; [|by eexists _, _].
  case_bool_decide; cbn; [by eexists _, _|].
  rewrite bool_decide_eq_false_2 by done. cbn.
  destruct status as [current|e]; cbn; [|by eexists _, _].
  destruct (send_message client) as [thread_msg_id|e]; cbn; [|by eexists _, _].
  destruct (forward_messages client) as [[]|e]; cbn; by eexists _, _.
Qed.

(** What [handle_error] does. *)
Lemma handle_error_run message error user_id replied β :
  ∃ β', handle_error message error user_id replied β = (replied, β')
    ∧ test_dialogs β' = delete user_id (test_dialogs β)
    ∧ dialog_messages β' = delete user_id (dialog_messages β)
    ∧ if replied is Returns _
      then length (replies β') = S (length (replies β))
      else replies β' = replies β.
Proof.
  exec_bot. destruct replied as [[]|e]; cbn; eexists; (split; [reflexivity|]);
    cbn; rewrite ?length_app; repeat split; cbn; lia.
Qed.

(** The end of a dialog: forward, clean up, tell the user.  The user is gone
    from both dicts in every case; the handler raises only when the closing
    reply and then the error reply both fail. *)
Lemma finish_dialog message client status was_stopped replied error_replied
    error β :
  ∃ o β',
    try_except
      (link ← forward_dialog_for_analysis client (from_user_id message) status;
       cleanup_dialog (from_user_id message);;
       send_completion_message message link was_stopped replied)
      (λ e, handle_error message error (from_user_id message) error_replied) β
    = (o, β')
    ∧ test_dialogs β' = delete (from_user_id message) (test_dialogs β)
    ∧ dialog_messages β' = delete (from_user_id message) (dialog_messages β)
    ∧ match replied, error_replied with
      | Raises _, Raises e => o = Raises e ∧ replies β' = replies β
      | _, _ => o = Returns tt ∧ length (replies β') = S (length (replies β))
      end.
Proof.
  destruct (forward_dialog_for_analysis_frame client (from_user_id message)
              status β) as (link & β1 & Hf & Htd & Hdm & Hrep).
  unfold try_except at 1.
  rewrite (H_bind_returns _ _ _ _ _ Hf).
  exec_bot. rewrite Htd, Hdm, Hrep.
  destruct replied as [[]|e]; cbn; [|destruct error_replied as [[]|e']; cbn];
    eexists _, _; (split; [reflexivity|]); cbn;
    rewrite ?delete_delete_eq, ?length_app; repeat split; cbn; lia.
Qed.

(** [/stop] from a user who has a dialog. *)
Lemma cmd_stop_dialog_run message client status replied error_replied β :
  is_Some (test_dialogs β !! from_user_id message) →
  ∃ o β', cmd_stop_dialog message client status replied error_replied β = (o, β')
    ∧ test_dialogs β' = delete (from_user_id message) (test_dialogs β)
    ∧ dialog_messages β' = delete (from_user_id message) (dialog_messages β)
    ∧ match replied, error_replied with
      | Raises _, Raises e => o = Raises e ∧ replies β' = replies β
      | _, _ => o = Returns tt ∧ length (replies β') = S (length (replies β))
      end.
Proof.
  intros [conductor Hknown]. unfold cmd_stop_dialog.
  unfold mbind at 1, H_bind at 1, gets at 1. rewrite Hknown.
  apply finish_dialog.
Qed.

(** A message from a user who has a dialog: the dialog goes on or ends. *)
Lemma on_test_message_run message handled client status replied error_replied
    β conductor :
  test_dialogs β !! from_user_id message = Some conductor →
  from_user_id (origin conductor) = from_user_id message →
  ∃ o β',
    on_test_message message handled client status replied error_replied β
    = (o, β')
    ∧ (o = Returns tt ∨ ∃ e, error_replied = Raises e ∧ o = Raises e)
    ∧ if match result handled with
         | Returns (false, error) => negb (truthy error)
         | _ => false
         end
      then o = Returns tt
           ∧ test_dialogs β' = test_dialogs β
           ∧ dialog_messages β'
             = alter (λ stored, stored ++ message :: sent handled)
                 (from_user_id message) (dialog_messages β)
      else test_dialogs β' = delete (from_user_id message) (test_dialogs β)
           ∧ dialog_messages β'
             = delete (from_user_id message) (dialog_messages β).
Proof.
  intros Hknown Huser. unfold on_test_message.
  unfold mbind at 1, H_bind at 1, gets at 1. rewrite Hknown.
  set (β0 := mkBot (test_dialogs β)
               (alter (λ messages, messages ++ [message]) (from_user_id message)
                  (dialog_messages β)) (replies β) (group_posts β)).
  destruct (call_conductor_run conductor handled β0)
    as (β1 & Hcall & Htd & _ & Hdm).
  rewrite Huser in Hdm. cbn in Htd, Hdm.
  rewrite alter_alter_eq in Hdm.
  assert (dialog_messages β1
          = alter (λ stored, stored ++ message :: sent handled)
              (from_user_id message) (dialog_messages β)) as Hdm'.
  { rewrite Hdm. apply alter_ext. intros stored _. cbn.
    by rewrite <- app_assoc. }
  clear Hdm.
  unfold try_except at 1.
  unfold mbind at 1, H_bind at 1, modify at 1. fold β0.
  destruct (result handled) as [[completed error]|e] eqn:Hresult.
  - rewrite (H_bind_returns _ _ _ _ _ Hcall). cbn [fst snd].
    destruct (truthy error) eqn:Herror; [|destruct completed]; cbn [negb].
    + exec_bot.
      destruct replied as [[]|e]; cbn; [|destruct error_replied as [[]|e']; cbn];
        eexists _, _; (split; [reflexivity|]); cbn;
        rewrite Htd, Hdm', ?delete_delete_eq, delete_alter_eq;
        (split; [by eauto|]); by destruct completed.
    + destruct (forward_dialog_for_analysis_frame client (from_user_id message)
                  status β1) as (link & β2 & Hf & Htd2 & Hdm2 & _).
      rewrite (H_bind_returns _ _ _ _ _ Hf).
      exec_bot. rewrite Htd2, Hdm2, Htd, Hdm'.
      destruct replied as [[]|e]; cbn; [|destruct error_replied as [[]|e']; cbn];
        eexists _, _; (split; [reflexivity|]); cbn;
        rewrite ?delete_delete_eq, delete_alter_eq; (split; [by eauto|]); done.
    + eexists _, _. split; [reflexivity|]. rewrite Htd, Hdm'.
      split; [by left|]. done.
  - rewrite (H_bind_raises _ _ _ _ _ Hcall).
    exec_bot.
    destruct error_replied as [[]|e']; cbn;
      eexists _, _; (split; [reflexivity|]); cbn;
      rewrite Htd, Hdm', delete_alter_eq; (split; [by eauto|]); done.
Qed.

(** X23. A message from a user who has no dialog changes neither dict.  A
    text that begins with a slash is ignored; any other text is answered
    with the hint, and the handler ends as that reply does (it is outside
    any [try]); a message without text makes the handler raise
    [AttributeError], as the test on [message.text] is outside the [try]
    too. *)
Theorem on_test_message_unknown message handled client status replied
    error_replied β :
  test_dialogs β !! from_user_id message = None →
  ∃ o β',
    on_test_message message handled client status replied error_replied β
    = (o, β')
    ∧ test_dialogs β' = test_dialogs β
    ∧ dialog_messages β' = dialog_messages β
    ∧ match text message with
      | None => (∃ e, o = Raises e ∧ exc_class e = AttributeError)
                ∧ replies β' = replies β
      | Some body =>
          if String.prefix "/" body
          then o = Returns tt ∧ replies β' = replies β
          else o = replied
               ∧ if replied is Returns _
                 then length (replies β') = S (length (replies β))
                 else replies β' = replies β
      end.
Proof.
  intros Hunknown. unfold on_test_message.
  unfold mbind at 1, H_bind at 1, gets at 1. rewrite Hunknown.
  exec_bot. destruct (text message) as [body|]; cbn.
  - destruct (String.prefix "/" body); cbn; [by eexists _, _|].
    destruct replied as [[]|e]; cbn; eexists _, _; (split; [reflexivity|]);
      cbn; rewrite ?length_app; repeat split; cbn; lia.
  - eexists _, _. split; [reflexivity|]. repeat split. by eexists.
Qed.

(** [/test_dialog]: refused, started, or failed and cleaned up. *)
Lemma cmd_test_dialog_run message constructed start replied error_replied β :
  ∃ o β',
    cmd_test_dialog message constructed start replied error_replied β = (o, β')
    ∧ match test_dialogs β !! from_user_id message with
      | Some _ =>
          o = replied
          ∧ test_dialogs β' = test_dialogs β
          ∧ dialog_messages β' = dialog_messages β
          ∧ if replied is Returns _
            then length (replies β') = S (length (replies β))
            else replies β' = replies β
      | None =>
          match constructed, result start with
          | Returns _, Returns _ =>
              o = Returns tt
              ∧ test_dialogs β'
                = <[from_user_id message := mkConductor message]> (test_dialogs β)
              ∧ dialog_messages β'
                = <[from_user_id message := message :: sent start]>
                    (dialog_messages β)
          | _, _ =>
              o = error_replied
              ∧ test_dialogs β' = delete (from_user_id message) (test_dialogs β)
              ∧ dialog_messages β'
                = delete (from_user_id message) (dialog_messages β)
          end
      end.
Proof.
  unfold cmd_test_dialog.
  unfold mbind at 1, H_bind at 1, gets at 1.
  destruct (test_dialogs β !! from_user_id message) as [known|] eqn:Hknown.
  - exec_bot. destruct replied as [[]|e]; cbn; eexists _, _;
      (split; [reflexivity|]); cbn; rewrite ?length_app; repeat split; cbn; lia.
  - destruct constructed as [[]|e].
    + set (β0 := mkBot (<[from_user_id message := mkConductor message]>
                          (test_dialogs β))
                       (<[from_user_id message := [message]]> (dialog_messages β))
                       (replies β) (group_posts β)).
      destruct (call_conductor_run (mkConductor message) start β0)
        as (β1 & Hcall & Htd & _ & Hdm).
      cbn in Htd, Hdm. rewrite alter_insert_eq in Hdm. cbn in Hdm.
      unfold try_except at 1.
      unfold mbind at 1, H_bind at 1, await at 1.
      unfold mbind at 1, H_bind at 1, modify at 1.
      unfold mbind at 1, H_bind at 1, modify at 1. cbn [test_dialogs
        dialog_messages replies group_posts]. fold β0.
      rewrite Hcall.
      destruct (result start) as [[]|e].
      * eexists _, _. split; [reflexivity|]. by rewrite Htd, Hdm.
      * destruct (handle_error_run message
          "Не удалось запустить тестовый диалог. Попробуйте позже."
          (from_user_id message) error_replied β1)
          as (β2 & Hh & Htd2 & Hdm2 & _).
        rewrite Hh. eexists _, _. split; [reflexivity|].
        by rewrite Htd2, Hdm2, Htd, Hdm, !delete_insert_eq.
    + unfold try_except at 1. unfold mbind at 1, H_bind at 1, await at 1.
      destruct (handle_error_run message
        "Не удалось запустить тестовый диалог. Попробуйте позже."
        (from_user_id message) error_replied β)
        as (β2 & Hh & Htd2 & Hdm2 & _).
      rewrite Hh. eexists _, _. split; [reflexivity|]. by rewrite Htd2, Hdm2.
Qed.

(** X21. [/stop] from a user who has a dialog always ends it: whatever the
    client does, and whether the handler returns or raises, the user is in
    neither dict afterwards and every other user's entries are as they were.
    The handler returns, having sent exactly one reply, unless the closing
    reply and then the error reply both fail; in that case it raises what
    the error reply raised and no reply has been sent. *)
Theorem cmd_stop_dialog_ends message client status replied error_replied β :
  is_Some (test_dialogs β !! from_user_id message) →
  ∃ o β', cmd_stop_dialog message client status replied error_replied β = (o, β')
    ∧ test_dialogs β' !! from_user_id message = None
    ∧ dialog_messages β' !! from_user_id message = None
    ∧ (∀ other, other ≠ from_user_id message →
         test_dialogs β' !! other = test_dialogs β !! other
         ∧ dialog_messages β' !! other = dialog_messages β !! other)
    ∧ match replied, error_replied with
      | Raises _, Raises e => o = Raises e ∧ replies β' = replies β
      | _, _ => o = Returns tt ∧ length (replies β') = S (length (replies β))
      end.
Proof.
  intros Hknown.
  destruct (cmd_stop_dialog_run message client status replied error_replied β
              Hknown) as (o & β' & Hrun & Htd & Hdm & Hout).
  exists o, β'. split; [done|]. rewrite Htd, Hdm, !lookup_delete_eq.
  repeat (split; [done|]). split; [|done].
  intros other Hother. by rewrite !lookup_delete_ne.
Qed.

(** X22. A message from a user who has a dialog, with the conductor the
    user's [/test_dialog] made.  When the conductor returns "not completed"
    and no error, the handler returns and the dialog goes on: the stored
    messages of the user are the old ones, then this message, then what the
    conductor sent, in that order.  When it returns an error, reports
    completion or raises, the user is in neither dict afterwards, whether
    the handler returns or raises.  Other users' entries are never touched,
    and the handler raises only when the reply of [handle_error] in its
    [except] clause fails, with what that reply raised. *)
Theorem on_test_message_known message handled client status replied
    error_replied β conductor :
  test_dialogs β !! from_user_id message = Some conductor →
  from_user_id (origin conductor) = from_user_id message →
  ∃ o β',
    on_test_message message handled client status replied error_replied β
    = (o, β')
    ∧ (o = Returns tt ∨ ∃ e, error_replied = Raises e ∧ o = Raises e)
    ∧ (∀ other, other ≠ from_user_id message →
         test_dialogs β' !! other = test_dialogs β !! other
         ∧ dialog_messages β' !! other = dialog_messages β !! other)
    ∧ if match result handled with
         | Returns (false, error) => negb (truthy error)
         | _ => false
         end
      then o = Returns tt
           ∧ test_dialogs β' !! from_user_id message = Some conductor
           ∧ dialog_messages β' !! from_user_id message
             = (λ stored, stored ++ message :: sent handled)
               <$> dialog_messages β !! from_user_id message
      else test_dialogs β' !! from_user_id message = None
           ∧ dialog_messages β' !! from_user_id message = None.
Proof.
  intros Hknown Huser.
  destruct (on_test_message_run message handled client status replied
              error_replied β conductor Hknown Huser)
    as (o & β' & Hrun & Hout & Hcase).
  exists o, β'. do 2 (split; [done|]).
  destruct (match result handled with
            | Returns (false, error) => negb (truthy error)
            | _ => false
            end).
  - destruct Hcase as (Ho & Htd & Hdm). rewrite Htd, Hdm. split.
    + intros other Hother. by rewrite lookup_alter_ne.
    + by rewrite lookup_alter_eq.
  - destruct Hcase as [Htd Hdm]. rewrite Htd, Hdm, !lookup_delete_eq.
    split; [|done]. intros other Hother. by rewrite !lookup_delete_ne.
Qed.

(** X24. [/test_dialog].  From a user who already has a dialog it changes
    neither dict and answers with the notice; the handler ends as that
    reply does, which is outside any [try].  From a user without one: if the
    conductor is built and started without an exception, the handler
    returns, the user has a conductor made from this command, and the stored
    messages are the command followed by what the conductor sent; otherwise
    the user has no entry in either dict and the handler ends as the reply
    of [handle_error] does.  Other users' entries are not touched. *)
Theorem cmd_test_dialog_result message constructed start replied error_replied β :
  ∃ o β',
    cmd_test_dialog message constructed start replied error_replied β = (o, β')
    ∧ (∀ other, other ≠ from_user_id message →
         test_dialogs β' !! other = test_dialogs β !! other
         ∧ dialog_messages β' !! other = dialog_messages β !! other)
    ∧ match test_dialogs β !! from_user_id message with
      | Some known =>
          o = replied
          ∧ test_dialogs β' !! from_user_id message = Some known
          ∧ dialog_messages β' = dialog_messages β
          ∧ if replied is Returns _
            then length (replies β') = S (length (replies β))
            else replies β' = replies β
      | None =>
          match constructed, result start with
          | Returns _, Returns _ =>
              o = Returns tt
              ∧ test_dialogs β' !! from_user_id message
                = Some (mkConductor message)
              ∧ dialog_messages β' !! from_user_id message
                = Some (message :: sent start)
          | _, _ =>
              o = error_replied
              ∧ test_dialogs β' !! from_user_id message = None
              ∧ dialog_messages β' !! from_user_id message = None
          end
      end.
Proof.
  destruct (cmd_test_dialog_run message constructed start replied error_replied β)
    as (o & β' & Hrun & Hcase).
  exists o, β'. split; [done|].
  destruct (test_dialogs β !! from_user_id message) as [known|] eqn:Hknown.
  - destruct Hcase as (Ho & Htd & Hdm & Hreplies). by rewrite Htd, Hdm, Hknown.
  - destruct constructed as [[]|e]; [destruct (result start) as [[]|e]|];
      destruct Hcase as (Ho & Htd & Hdm); rewrite Htd, Hdm;
      rewrite ?lookup_insert_eq, ?lookup_delete_eq; (split; [|done]);
      intros other Hother;
      by rewrite ?lookup_insert_ne, ?lookup_delete_ne.
Qed.

(** ** The two dicts stay in step *)

Lemma cmd_stop_dialog_unknown message client status replied error_replied β :
  test_dialogs β !! from_user_id message = None →
  ∃ o β', cmd_stop_dialog message client status replied error_replied β = (o, β')
    ∧ test_dialogs β' = test_dialogs β
    ∧ dialog_messages β' = dialog_messages β.
Proof.
  intros Hunknown. unfold cmd_stop_dialog.
  unfold mbind at 1, H_bind at 1, gets at 1. rewrite Hunknown.
  exec_bot. destruct replied as [[]|e]; by eexists _, _.
Qed.

Lemma on_test_message_unknown_frame message handled client status replied
    error_replied β :
  test_dialogs β !! from_user_id message = None →
  ∃ o β',
    on_test_message message handled client status replied error_replied β
    = (o, β')
    ∧ test_dialogs β' = test_dialogs β
    ∧ dialog_messages β' = dialog_messages β.
Proof.
  intros Hunknown. unfold on_test_message.
  unfold mbind at 1, H_bind at 1, gets at 1. rewrite Hunknown.
  exec_bot. destruct (text message) as [body|]; cbn; [|by eexists _, _].
  destruct (String.prefix "/" body); cbn; [by eexists _, _|].
  destruct replied as [[]|e]; by eexists _, _.
Qed.

Lemma handle_keeps update β :
  consistent β → well_keyed β →
  consistent (handle update β).2 ∧ well_keyed (handle update β).2.
Proof.
  unfold consistent, well_keyed. intros Hdom Hkey.
  destruct update as [message constructed start replied error_replied
                     |message client status replied error_replied
                     |message handled client status replied error_replied];
    cbn [handle].
  - destruct (cmd_test_dialog_run message constructed start replied
                error_replied β) as (o & β' & Hrun & Hcase).
    rewrite Hrun. cbn [snd].
    destruct (test_dialogs β !! from_user_id message) as [known|] eqn:Hknown.
    + destruct Hcase as (_ & Htd & Hdm & _). by rewrite Htd, Hdm.
    + destruct constructed as [[]|e]; [destruct (result start) as [[]|e]|];
        destruct Hcase as (_ & Htd & Hdm); rewrite Htd, Hdm;
        rewrite ?dom_insert_L, ?dom_delete_L, Hdom; (split; [done|]);
        intros user_id conductor;
        (destruct (decide (user_id = from_user_id message)) as [->|Hne];
         [rewrite ?lookup_insert_eq, ?lookup_delete_eq; by intros [= <-]
         |rewrite ?lookup_insert_ne, ?lookup_delete_ne by done; apply Hkey]).
  - destruct (test_dialogs β !! from_user_id message) as [known|] eqn:Hknown.
    + destruct (cmd_stop_dialog_run message client status replied
                  error_replied β)
        as (o & β' & Hrun & Htd & Hdm & _); [by eexists|].
      rewrite Hrun. cbn [snd].
      rewrite Htd, Hdm, !dom_delete_L, Hdom. split; [done|].
      intros user_id conductor [_ Hc]%lookup_delete_Some. by apply Hkey.
    + destruct (cmd_stop_dialog_unknown message client status replied
                  error_replied β Hknown)
        as (o & β' & Hrun & Htd & Hdm). rewrite Hrun. cbn [snd].
      by rewrite Htd, Hdm.
  - destruct (test_dialogs β !! from_user_id message) as [known|] eqn:Hknown.
    + destruct (on_test_message_run message handled client status replied
                  error_replied β known Hknown (Hkey _ _ Hknown))
        as (o & β' & Hrun & _ & Hcase).
      rewrite Hrun. cbn [snd].
      destruct (match result handled with
                | Returns (false, error) => negb (truthy error)
                | _ => false
                end).
      * destruct Hcase as (_ & Htd & Hdm). rewrite Htd, Hdm.
        by rewrite dom_alter_L.
      * destruct Hcase as [Htd Hdm]. rewrite Htd, Hdm.
        rewrite !dom_delete_L, Hdom. split; [done|].
        intros user_id conductor [_ Hc]%lookup_delete_Some. by apply Hkey.
    + destruct (on_test_message_unknown_frame message handled client status
                  replied error_replied β Hknown)
        as (o & β' & Hrun & Htd & Hdm).
      rewrite Hrun. cbn [snd]. by rewrite Htd, Hdm.
Qed.

(** X25. The two dicts stay in step.  After any sequence of updates handled
    from the empty start, whatever conductors and client do and also when a
    handler raises, a user has stored messages exactly when the user has a
    conductor, and the conductor kept for a user is the one made from a
    command of that user. *)
Theorem handle_all_consistent updates :
  dom (test_dialogs (handle_all updates initial))
  = dom (dialog_messages (handle_all updates initial))
  ∧ ∀ user_id conductor,
      test_dialogs (handle_all updates initial) !! user_id = Some conductor →
      from_user_id (origin conductor) = user_id.
Proof.
  assert (∀ β, consistent β → well_keyed β →
               consistent (handle_all updates β) ∧ well_keyed (handle_all updates β))
    as Hall.
  { unfold handle_all. induction updates as [|update updates IH]; intros β Hc Hk.
    - done.
    - cbn [fold_left]. destruct (handle_keeps update β Hc Hk). by apply IH. }
  apply Hall.
  - unfold consistent. cbn. by rewrite !dom_empty_L.
  - intros user_id conductor. cbn. by rewrite lookup_empty.
Qed.

(** ** Scenarios of the handlers *)

Import Studio.

Lemma cmd_stop_dialog_ends_talking :
  ∃ o β', cmd_stop_dialog stop_command reachable (Returns active) (Raises Sample.flood)
            (Returns tt) talking = (o, β')
    ∧ test_dialogs β' !! from_user_id stop_command = None
    ∧ dialog_messages β' !! from_user_id stop_command = None
    ∧ (∀ other, other ≠ from_user_id stop_command →
         test_dialogs β' !! other = test_dialogs talking !! other
         ∧ dialog_messages β' !! other = dialog_messages talking !! other)
    ∧ o = Returns tt ∧ length (replies β') = S (length (replies talking)).
Proof.
  apply (cmd_stop_dialog_ends stop_command reachable (Returns active)
           (Raises Sample.flood) (Returns tt) talking).
  eexists. vm_compute. reflexivity.
Defined.

Lemma on_test_message_known_goes_on :
  ∃ o β', on_test_message question goes_on reachable (Returns active) (Returns tt)
            (Returns tt) talking = (o, β')
    ∧ (o = Returns tt ∨ ∃ e, Returns tt = Raises e ∧ o = Raises e)
    ∧ (∀ other, other ≠ from_user_id question →
         test_dialogs β' !! other = test_dialogs talking !! other
         ∧ dialog_messages β' !! other = dialog_messages talking !! other)
    ∧ if match result goes_on with
         | Returns (false, error) => negb (truthy error)
         | _ => false
         end
      then o = Returns tt
           ∧ test_dialogs β' !! from_user_id question = Some (mkConductor command)
           ∧ dialog_messages β' !! from_user_id question
             = (λ stored, stored ++ question :: sent goes_on)
               <$> dialog_messages talking !! from_user_id question
      else test_dialogs β' !! from_user_id question = None
           ∧ dialog_messages β' !! from_user_id question = None.
Proof.
  apply (on_test_message_known question goes_on reachable (Returns active) (Returns tt)
           (Returns tt) talking (mkConductor command)).
  - vm_compute. reflexivity.
  - reflexivity.
Defined.

Lemma on_test_message_unknown_photo :
  ∃ o β', on_test_message photo goes_on reachable (Returns active) (Returns tt)
            (Returns tt) talking = (o, β')
    ∧ test_dialogs β' = test_dialogs talking
    ∧ dialog_messages β' = dialog_messages talking
    ∧ (∃ e, o = Raises e ∧ exc_class e = AttributeError)
    ∧ replies β' = replies talking.
Proof.
  apply (on_test_message_unknown photo goes_on reachable (Returns active) (Returns tt)
           (Returns tt) talking).
  vm_compute. reflexivity.
Defined.

(** With a client for which every call goes well, the dialog of user 7 is
    forwarded: the link is returned and the thread message posted. *)
Lemma forward_dialog_for_analysis_link_reachable :
  forwarded reachable 7 (Returns closed) talking [command; greeting] closed
    (-1001234567890) 42 77
  ∧ ∃ link β',
      forward_dialog_for_analysis reachable 7 (Returns closed) talking
      = (Returns link, β')
      ∧ link = thread_link (-1001234567890) 42 77
      ∧ group_posts β'
        = [(-1001234567890, 42, thread_message_text [command; greeting] closed)].
Proof.
  assert (forwarded reachable 7 (Returns closed) talking [command; greeting]
            closed (-1001234567890) 42 77) as Hforwarded.
  { unfold forwarded. split_and!; try done; by eexists. }
  split; [exact Hforwarded|].
  destruct (forward_dialog_for_analysis_link reachable 7 (Returns closed) talking)
    as (link & β' & Hrun & _ & _ & _ & Hyes & _).
  destruct (Hyes _ _ _ _ _ Hforwarded) as (Hlink & _ & Hposts).
  exists link, β'. by split_and!.
Defined.

(** The conductor fails to give its status: nothing is posted and the link
    is empty. *)
Example forward_dialog_for_analysis_no_status :
  forward_dialog_for_analysis reachable 7 (Raises Sample.flood) talking
  = (Returns EmptyString, talking).
Proof. vm_compute. reflexivity. Qed.

(** The link of a forwarded dialog: the group id without its ["-100"]. *)
Example forward_dialog_for_analysis_link_talking :
  (forward_dialog_for_analysis reachable 7 (Returns closed) talking).1
  = Returns "https://t.me/c/1234567890/42/77".
Proof. vm_compute. reflexivity. Qed.

(** The closing reply and the error reply both fail: the handler raises,
    and the dialog is gone all the same. *)
Example cmd_stop_dialog_raises :
  let r := cmd_stop_dialog stop_command reachable (Returns active) (Raises Sample.flood)
             (Raises Sample.store_down) talking in
  r.1 = Raises Sample.store_down ∧ test_dialogs r.2 !! 7 = None.
Proof. vm_compute. split; reflexivity. Qed.

(** * The transitions of the status, on sample data *)

(** A sweep in which every session reports a ban: alice and bob, who were
    active, are blocked; carol, who was blocked, is not checked. *)
Lemma core_status_transitions_sweep :
  NoDup (id <$> db Fixture.mixed)
  ∧ through_sweeps [CheckAllAccounts (λ _, Sample.banned); GetAvailableAccount]
  ∧ status_of 1
      (db (run_ops 50 Sample.permissive
             [CheckAllAccounts (λ _, Sample.banned); GetAvailableAccount]
             Fixture.mixed))
    = Some BLOCKED
  ∧ ∀ i,
      status_of i
        (db (run_ops 50 Sample.permissive
               [CheckAllAccounts (λ _, Sample.banned); GetAvailableAccount]
               Fixture.mixed))
      ≠ status_of i (db Fixture.mixed) →
      status_of i (db Fixture.mixed) = Some ACTIVE.
Proof.
  assert (NoDup (id <$> db Fixture.mixed)) as Hnd.
  { apply (bool_decide_unpack _). vm_compute. reflexivity. }
  assert (through_sweeps
            [CheckAllAccounts (λ _, Sample.banned); GetAvailableAccount])
    as Hops by (repeat constructor).
  split; [exact Hnd|]. split; [exact Hops|]. split; [vm_compute; reflexivity|].
  exact (proj2 (proj2 (core_status_transitions 50 Sample.permissive
           [CheckAllAccounts (λ _, Sample.banned); GetAvailableAccount]
           Fixture.mixed)) Hnd Hops).
Defined.

(** * The direct check of an account that is not active *)

(** C8, the transition that the enumeration "active to disabled, active to
    blocked" misses: three erroring checks of carol, whose row is blocked,
    called directly.  [_mark_account_disabled] writes without reading the
    status, and the row goes from blocked to disabled. *)
Lemma check_account_blocked_to_disabled :
  status_of 3 (db Fixture.mixed) = Some BLOCKED
  ∧ status_of 3
      (db (run_ops 50 Sample.permissive
             [CheckAccount Fixture.carol Sample.flaky;
              CheckAccount Fixture.carol Sample.flaky;
              CheckAccount Fixture.carol Sample.flaky] Fixture.mixed))
    = Some DISABLED.
Proof. vm_compute. split; reflexivity. Defined.
